(** * The import rewriter of the memory-package migration

    A shallow embedding of [fix_memory_imports.py] (and of the one fix of
    [fix_compilation_errors.py] that shares its write-back discipline).

    Python [str] values are modelled as lists of characters.  A character is
    an [ascii], read as a code point below 256; the character classes of the
    [re] module ([\s], [\w]) and of [str.strip] are written out for that
    range exactly as CPython classifies it. *)

From Stdlib Require Import Ascii String NArith Lia.
From stdpp Require Import base option list gmap strings sorting.

Local Open Scope char_scope.
Local Open Scope list_scope.

(** ** Strings *)

Abbreviation pystr := (list ascii).

(** A string literal of the source. *)
Definition L (s : string) : pystr := list_ascii_of_string s.

Definition newline : ascii := "010".

(** ** Character classes *)

Definition code (c : ascii) : N := N_of_ascii c.

Definition in_range (lo hi : N) (c : ascii) : bool :=
  ((lo <=? code c) && (code c <=? hi))%N.

(** [\s] on [str] patterns and [str.isspace]: TAB..CR, FS..US, space,
    NEL and NBSP. *)
Definition is_space (c : ascii) : bool :=
  in_range 9 13 c || in_range 28 32 c || in_range 133 133 c || in_range 160 160 c.

(** [\w] on [str] patterns: alphanumerics and the underscore. *)
Definition is_word (c : ascii) : bool :=
  in_range 48 57 c || in_range 65 90 c || in_range 95 95 c || in_range 97 122 c
  || in_range 170 170 c || in_range 178 179 c || in_range 181 181 c
  || in_range 185 186 c || in_range 188 190 c || in_range 192 214 c
  || in_range 216 246 c || in_range 248 255 c.

(** ** String methods of Python used by the scripts *)

Fixpoint take_while (f : ascii -> bool) (s : pystr) : pystr :=
  match s with
  | c :: s' => if f c then c :: take_while f s' else []
  | [] => []
  end.

Fixpoint skip_while (f : ascii -> bool) (s : pystr) : pystr :=
  match s with
  | c :: s' => if f c then skip_while f s' else s
  | [] => []
  end.

(** [s.startswith(p)] *)
Fixpoint startswith (p s : pystr) : bool :=
  match p, s with
  | [], _ => true
  | a :: p', c :: s' => Ascii.eqb a c && startswith p' s'
  | _ :: _, [] => false
  end.

(** [p in s] *)
Fixpoint contains (p s : pystr) : bool :=
  startswith p s || match s with [] => false | _ :: s' => contains p s' end.

Definition lstrip (s : pystr) : pystr := skip_while is_space s.
Definition rstrip (s : pystr) : pystr := rev (skip_while is_space (rev s)).
(** [s.strip()] *)
Definition strip (s : pystr) : pystr := rstrip (lstrip s).

(** [s.split(sep)] for a one-character separator: never the empty list. *)
Fixpoint split (sep : ascii) (s : pystr) : list pystr :=
  match s with
  | [] => [[]]
  | c :: s' =>
      if Ascii.eqb c sep then [] :: split sep s'
      else match split sep s' with
           | h :: t => (c :: h) :: t
           | [] => [[c]]
           end
  end.

(** [sep.join(l)] *)
Fixpoint join (sep : pystr) (l : list pystr) : pystr :=
  match l with
  | [] => []
  | [x] => x
  | x :: l' => x ++ sep ++ join sep l'
  end.

(** [l.insert(i, x)] for a non-negative index: past the end it appends. *)
Definition py_insert {A} (i : nat) (x : A) (l : list A) : list A :=
  take i l ++ x :: drop i l.

(** ** Regular expressions

    A pattern tried at the head of a string gives the groups of the match
    and the text that follows the match.  The pieces below are the greedy
    quantifiers of [re].  In every pattern of the scripts the characters a
    quantifier repeats over cannot start what follows it ([\s+] before a
    letter, [\w+] before [::], [\s*] or the end, [[^}]+] before a closing
    brace), so giving a character back never turns a failure into a match
    and the first match [re] finds is the greedy one. *)

Definition pattern (A : Type) := pystr -> option (A * pystr).

(** A literal. *)
Fixpoint lit (p s : pystr) : option pystr :=
  match p with
  | [] => Some s
  | a :: p' =>
      match s with
      | c :: s' => if Ascii.eqb a c then lit p' s' else None
      | [] => None
      end
  end.

(** [X*] and [X+] over a character class. *)
Definition many (f : ascii -> bool) (s : pystr) : option pystr :=
  Some (skip_while f s).

Definition many1 (f : ascii -> bool) (s : pystr) : option pystr :=
  match s with
  | c :: s' => if f c then Some (skip_while f s') else None
  | [] => None
  end.

(** The tail of [\w+(?:::\w+)*] once its first character is taken: the
    rest of the group and the text after it. *)
Fixpoint module_path_tail (s : pystr) : pystr * pystr :=
  match s with
  | [] => ([], [])
  | c :: s' =>
      if is_word c then
        let (g, r) := module_path_tail s' in (c :: g, r)
      else
        match s with
        | ":" :: ":" :: d :: s'' =>
            if is_word d then
              let (g, r) := module_path_tail s'' in (":" :: ":" :: d :: g, r)
            else ([], s)
        | _ => ([], s)
        end
  end.

(** The capturing group [\w+(?:::\w+)*]. *)
Definition module_path (s : pystr) : option (pystr * pystr) :=
  match s with
  | c :: s' => if is_word c then
                 let (g, r) := module_path_tail s' in Some (c :: g, r)
               else None
  | [] => None
  end.

(** [re.sub(pattern, repl, s)]: the matches are found from left to right
    and do not overlap; after a match the scan goes on behind it.  No
    pattern of the scripts matches the empty string.  The fuel is the
    length of the string, which no scan exhausts. *)
Fixpoint re_sub_fuel {A} (pat : pattern A) (repl : A -> pystr)
    (fuel : nat) (s : pystr) : pystr :=
  match fuel with
  | O => s
  | S fuel' =>
      match s with
      | [] => []
      | c :: s' =>
          match pat s with
          | Some (g, rest) => repl g ++ re_sub_fuel pat repl fuel' rest
          | None => c :: re_sub_fuel pat repl fuel' s'
          end
      end
  end.

Definition re_sub {A} (pat : pattern A) (repl : A -> pystr) (s : pystr) : pystr :=
  re_sub_fuel pat repl (length s) s.

(** [re.findall(pattern, s)], as the list of the groups of the matches. *)
Fixpoint re_findall_fuel {A} (pat : pattern A) (fuel : nat) (s : pystr) : list A :=
  match fuel with
  | O => []
  | S fuel' =>
      match s with
      | [] => []
      | c :: s' =>
          match pat s with
          | Some (g, rest) => g :: re_findall_fuel pat fuel' rest
          | None => re_findall_fuel pat fuel' s'
          end
      end
  end.

Definition re_findall {A} (pat : pattern A) (s : pystr) : list A :=
  re_findall_fuel pat (length s) s.

(** ** transform_external_imports *)

(** [use\s+paraphym_memory::] *)
Definition external_pattern : pattern unit := fun s =>
  r ← lit (L "use") s;
  r ← many1 is_space r;
  r ← lit (L "paraphym_memory::") r;
  Some (tt, r).

Definition external_replacement : pystr := L "use paraphym_candle::memory::".

Definition transform_external_imports (content : pystr) : pystr :=
  re_sub external_pattern (fun _ => external_replacement) content.

(** The count the function prints. *)
Definition external_changes (content : pystr) : nat :=
  length (re_findall external_pattern content).

(** ** transform_internal_memory_imports *)

(** [use\s+crate::(?!memory::)] followed by the capturing group
    [\w+(?:::\w+)*], which is group 1. *)
Definition pattern1 : pattern pystr := fun s =>
  r ← lit (L "use") s;
  r ← many1 is_space r;
  r ← lit (L "crate::") r;
  if startswith (L "memory::") r then None else module_path r.

Definition replace1 (group1 : pystr) : pystr :=
  L "use crate::memory::" ++ group1.

(** [use\s+crate::\{([^}]+)\}], giving group 1. *)
Definition not_rbrace (c : ascii) : bool := negb (Ascii.eqb c "}").

Definition pattern2 : pattern pystr := fun s =>
  r ← lit (L "use") s;
  r ← many1 is_space r;
  r ← lit (L "crate::{") r;
  r' ← many1 not_rbrace r;
  rest ← lit (L "}") r';
  Some (take_while not_rbrace r, rest).

Definition reserved : list pystr := [L "Error"; L "Result"].

Definition pystr_eqb (a b : pystr) : bool := bool_decide (a = b).

(** [item in ['Error', 'Result']] *)
Definition is_reserved (item : pystr) : bool := existsb (pystr_eqb item) reserved.

(** [item_list] of [replace2] *)
Definition item_list_of (items : pystr) : list pystr :=
  map strip (split "," items).

(** The body of the loop of [replace2]: one item, appended to [new_items]
    or skipped.  The two branches of the inner test append the same text. *)
Definition replace2_step (new_items : list pystr) (item : pystr) : list pystr :=
  let item := strip item in
  match item with
  | [] => new_items
  | _ =>
      if negb (startswith (L "memory::") item) && negb (is_reserved item) then
        if negb (contains (L "::") item) || startswith (L "memory") item
        then new_items ++ [L "memory::" ++ item]
        else new_items ++ [L "memory::" ++ item]
      else new_items ++ [item]
  end.

Definition replace2_items (items : pystr) : list pystr :=
  fold_left replace2_step (item_list_of items) [].

Definition replace2 (items : pystr) : pystr :=
  L "use crate::{" ++ join (L ", ") (replace2_items items) ++ L "}".

Definition transform_internal_memory_imports (content : pystr) : pystr :=
  let new_content := re_sub pattern1 replace1 content in
  re_sub pattern2 replace2 new_content.

(** The count the function prints: one per match of [pattern1], one per
    match of [pattern2] whose items changed. *)
Definition internal_changes (content : pystr) : nat :=
  let new_content := re_sub pattern1 replace1 content in
  length (re_findall pattern1 content)
  + length (List.filter
              (fun items => negb (bool_decide (replace2_items items = item_list_of items)))
              (re_findall pattern2 new_content)).

(** ** add_memory_module_to_lib: the text of the anchor file *)

(** [^\s*pub\s+mod\s+memory\s*;] behind the [^]. *)
Definition memory_decl_pattern : pattern unit := fun s =>
  r ← many is_space s;
  r ← lit (L "pub") r;
  r ← many1 is_space r;
  r ← lit (L "mod") r;
  r ← many1 is_space r;
  r ← lit (L "memory") r;
  r ← many is_space r;
  r ← lit (L ";") r;
  Some (tt, r).

(** [(^\s*pub\s+mod\s+\w+\s*;)] behind the [^]. *)
Definition pub_mod_pattern : pattern unit := fun s =>
  r ← many is_space s;
  r ← lit (L "pub") r;
  r ← many1 is_space r;
  r ← lit (L "mod") r;
  r ← many1 is_space r;
  r ← many1 is_word r;
  r ← many is_space r;
  r ← lit (L ";") r;
  Some (tt, r).

Definition matches {A} (pat : pattern A) (s : pystr) : bool :=
  match pat s with Some _ => true | None => false end.

(** [re.search(pattern, s, re.MULTILINE)] for a pattern that starts with
    [^]: [bol] tells whether the scan stands at the start of the string
    or behind a newline. *)
Fixpoint re_search_multiline {A} (pat : pattern A) (bol : bool) (s : pystr) : bool :=
  (bol && matches pat s)
  || match s with
     | [] => false
     | c :: s' => re_search_multiline pat (Ascii.eqb c newline) s'
     end.

(** [re.finditer(pattern, s, re.MULTILINE)] for such a pattern, as the
    list of [match.end()]; [pos] is the offset of the scan. *)
Fixpoint re_finditer_ends_fuel {A} (pat : pattern A) (fuel : nat)
    (bol : bool) (pos : nat) (s : pystr) : list nat :=
  match fuel with
  | O => []
  | S fuel' =>
      match (if bol then pat s else None) with
      | Some (_, rest) =>
          let n := length s - length rest in
          (pos + n)
          :: re_finditer_ends_fuel pat fuel'
               (bool_decide (last (take n s) = Some newline)) (pos + n) rest
      | None =>
          match s with
          | [] => []
          | c :: s' =>
              re_finditer_ends_fuel pat fuel' (Ascii.eqb c newline) (S pos) s'
          end
      end
  end.

Definition re_finditer_ends {A} (pat : pattern A) (s : pystr) : list nat :=
  re_finditer_ends_fuel pat (S (length s)) true 0 s.

Definition doc_line : pystr :=
  L "/// Memory system with cognitive features and vector storage".
Definition decl_line : pystr := L "pub mod memory;".

(** The text inserted behind the last [pub mod] declaration. *)
Definition inserted_text : pystr :=
  newline :: doc_line ++ newline :: decl_line.

(** The test of the loop over the lines. *)
Definition is_code_line (line : pystr) : bool :=
  negb (bool_decide (strip line = []))
  && negb (startswith (L "//") (strip line))
  && negb (startswith (L "#!") (strip line)).

(** The loop over [enumerate(lines)] with its [break]: the index of the
    first code line, from [i] on. *)
Fixpoint first_code_line (i : nat) (lines : list pystr) : option nat :=
  match lines with
  | [] => None
  | line :: lines' =>
      if is_code_line line then Some i else first_code_line (S i) lines'
  end.

Definition insert_line_of (lines : list pystr) : nat :=
  default 0 (first_code_line 0 lines).

(** The new text of the anchor file, when the declaration is missing. *)
Definition with_memory_module (content : pystr) : pystr :=
  match last (re_finditer_ends pub_mod_pattern content) with
  | Some insert_pos =>
      take insert_pos content ++ inserted_text ++ drop insert_pos content
  | None =>
      let lines := split newline content in
      let insert_line := insert_line_of lines in
      let lines := py_insert insert_line doc_line lines in
      let lines := py_insert (insert_line + 1) decl_line lines in
      let lines := py_insert (insert_line + 2) [] lines in
      join [newline] lines
  end.

Definition memory_module_declared (content : pystr) : bool :=
  re_search_multiline memory_decl_pattern true content.

(** ** Paths *)

(** A [pathlib.Path], as the list of its components. *)
Abbreviation Path := (list pystr).

(** [str(path)] of a relative path. *)
Definition path_str (p : Path) : pystr :=
  match p with
  | [] => L "."
  | _ => join (L "/") p
  end.

(** [path.relative_to(base)]: [None] stands for the [ValueError]. *)
Definition relative_to (p base : Path) : option Path :=
  if bool_decide (base `prefix_of` p) then Some (drop (length base) p) else None.

Definition is_memory_file (file_path candle_src : Path) : bool :=
  match relative_to file_path candle_src with
  | Some relative_path => startswith (L "memory/") (path_str relative_path)
  | None => false
  end.

(** ** The file system and the effects of the scripts *)

Inductive exn :=
| FileNotFoundError
| IsADirectoryError
| PermissionError
| UnicodeDecodeError
| ValueError.

(** A regular file: its text, and the error that reading or writing it
    raises, if any. *)
Record file := {
  content : pystr;
  read_error : option exn;
  write_error : option exn
}.

Inductive node :=
| Dir
| File (f : file).

(** What the scripts print. *)
Inductive msg :=
| Say (line : string)
| WarnNotFound (p : Path)
| AlreadyDeclared
| AddedDeclaration
| TransformedExternal (changes : nat)
| TransformedInternal (changes : nat)
| ErrorProcessing (p : Path) (e : exn)
| ErrorSrcNotFound (p : Path)
| WorkingDirectory (p : Path)
| Processing (relative_path : Path)
| Processed (n : nat)
| Modified (n : nat).

(** The state the scripts act on: the file system, the log of the writes
    made, and the standard output. *)
Record world := {
  fs : gmap Path node;
  writes : list (Path * pystr);
  stdout : list msg
}.

Inductive result (A : Type) :=
| Return (a : A)
| Raise (e : exn).
Arguments Return {A} a.
Arguments Raise {A} e.

(** A computation of the scripts: it ends with a value or with an
    exception, and in both cases leaves a world behind. *)
Definition M (A : Type) : Type := world -> result A * world.

Definition ret {A} (a : A) : M A := fun w => (Return a, w).
Definition raise {A} (e : exn) : M A := fun w => (Raise e, w).
Definition bind {A B} (m : M A) (k : A -> M B) : M B := fun w =>
  match m w with
  | (Return a, w') => k a w'
  | (Raise e, w') => (Raise e, w')
  end.

#[global] Instance M_ret : MRet M := @ret.
#[global] Instance M_bind : MBind M := fun A B k m => bind m k.

(** [try: body except Exception as e: handler(e)] *)
Definition try_except {A} (body : M A) (handler : exn -> M A) : M A := fun w =>
  match body w with
  | (Return a, w') => (Return a, w')
  | (Raise e, w') => handler e w'
  end.

(** The world after a line is printed, and after a file is written. *)
Definition printed (m : msg) (w : world) : world :=
  {| fs := fs w; writes := writes w; stdout := stdout w ++ [m] |}.

Definition logged (out : list msg) (w : world) : world :=
  {| fs := fs w; writes := writes w; stdout := stdout w ++ out |}.

Definition stored (p : Path) (f : file) (w : world) : world :=
  {| fs := <[p := File f]> (fs w);
     writes := writes w ++ [(p, content f)];
     stdout := stdout w |}.

Definition print (m : msg) : M unit := fun w => (Return tt, printed m w).

(** [path.exists()] *)
Definition path_exists (p : Path) : M bool := fun w =>
  (Return (bool_decide (is_Some (fs w !! p))), w).

(** [path.read_text()] *)
Definition read_text (p : Path) : M pystr := fun w =>
  match fs w !! p with
  | None => (Raise FileNotFoundError, w)
  | Some Dir => (Raise IsADirectoryError, w)
  | Some (File f) =>
      match read_error f with
      | Some e => (Raise e, w)
      | None => (Return (content f), w)
      end
  end.

(** The file with a new text. *)
Definition with_content (text : pystr) (f : file) : file :=
  {| content := text; read_error := read_error f; write_error := write_error f |}.

(** [path.write_text(text)]: the file is replaced as a whole, and a write
    that fails leaves it as it was. *)
Definition write_text (p : Path) (text : pystr) : M unit := fun w =>
  match fs w !! p with
  | None =>
      (Return tt,
       stored p {| content := text; read_error := None; write_error := None |} w)
  | Some Dir => (Raise IsADirectoryError, w)
  | Some (File f) =>
      match write_error f with
      | Some e => (Raise e, w)
      | None => (Return tt, stored p (with_content text f) w)
      end
  end.

(** The text of a file, if the path is one. *)
Definition text_of (w : world) (p : Path) : option pystr :=
  match fs w !! p with
  | Some (File f) => Some (content f)
  | _ => None
  end.

(** [fnmatch(name, '*.rs')] *)
Definition is_rs_name (name : pystr) : bool := startswith (rev (L ".rs")) (rev name).

(** The order of the names in one directory listing.  The file system
    chooses it; it is taken here to be the order of the code points. *)
Fixpoint name_leb (a b : pystr) : bool :=
  match a, b with
  | [], _ => true
  | _ :: _, [] => false
  | c :: a', d :: b' =>
      (code c <? code d)%N || ((code c =? code d)%N && name_leb a' b')
  end.

(** The order in which [rglob] yields two paths: it goes through the
    directories top down, and what a directory holds itself comes before
    what its subdirectories hold. *)
Fixpoint yielded_before (p q : Path) : bool :=
  match p, q with
  | [], _ => true
  | _ :: _, [] => false
  | x :: p', y :: q' =>
      match p', q' with
      | [], [] => name_leb x y
      | [], _ :: _ => true
      | _ :: _, [] => false
      | _ :: _, _ :: _ =>
          if bool_decide (x = y) then yielded_before p' q' else name_leb x y
      end
  end.

Definition yields_before : relation Path := fun p q => yielded_before p q = true.

#[global] Instance yields_before_dec : RelDecision yields_before :=
  fun p q => decide (yielded_before p q = true).

(** [list(candle_src.rglob('*.rs'))]: every entry below the directory
    whose name ends in [.rs], in the order [rglob] yields them. *)
Definition rglob_rs (candle_src : Path) : M (list Path) := fun w =>
  (Return
     (merge_sort yields_before
        (List.filter
           (fun p => bool_decide (candle_src `prefix_of` p)
                     && negb (bool_decide (p = candle_src))
                     && is_rs_name (default [] (last p)))
           (map fst (map_to_list (fs w))))),
   w).

(** ** add_memory_module_to_lib *)

Definition add_memory_module_to_lib (lib_rs_path : Path) : M bool :=
  e ← path_exists lib_rs_path;
  if negb e then
    _ ← print (WarnNotFound lib_rs_path);
    mret false
  else
    content ← read_text lib_rs_path;
    if memory_module_declared content then
      _ ← print AlreadyDeclared;
      mret false
    else
      let new_content := with_memory_module content in
      _ ← write_text lib_rs_path new_content;
      _ ← print AddedDeclaration;
      mret true.

(** ** process_rust_file *)

(** The two transformations with the line they print. *)
Definition transform_external_imports_io (content : pystr) : M pystr :=
  let new_content := transform_external_imports content in
  let changes := external_changes content in
  _ ← (if (0 <? changes)%nat then print (TransformedExternal changes) else mret tt);
  mret new_content.

Definition transform_internal_memory_imports_io (content : pystr) : M pystr :=
  let new_content := transform_internal_memory_imports content in
  let changes := internal_changes content in
  _ ← (if (0 <? changes)%nat then print (TransformedInternal changes) else mret tt);
  mret new_content.

(** The text [process_rust_file] computes from the text it read. *)
Definition rewritten_content (file_path candle_src : Path) (content : pystr) : pystr :=
  let content := transform_external_imports content in
  if is_memory_file file_path candle_src
  then transform_internal_memory_imports content
  else content.

Definition process_rust_file (file_path candle_src : Path) : M bool :=
  try_except
    (content ← read_text file_path;
     let original_content := content in
     content ← transform_external_imports_io content;
     content ← (if is_memory_file file_path candle_src
                then transform_internal_memory_imports_io content
                else mret content);
     if negb (bool_decide (content = original_content)) then
       _ ← write_text file_path content;
       mret true
     else mret false)
    (fun e =>
       _ ← print (ErrorProcessing file_path e);
       mret false).

(** ** main *)

(** The loop over [rust_files], with its two counters. *)
Fixpoint process_all (candle_src : Path) (rust_files : list Path)
    (processed_files changed_files : nat) : M (nat * nat) :=
  match rust_files with
  | [] => mret (processed_files, changed_files)
  | rust_file :: rust_files' =>
      relative_path ← (match relative_to rust_file candle_src with
                       | Some r => mret r
                       | None => raise ValueError
                       end);
      _ ← print (Processing relative_path);
      changed ← process_rust_file rust_file candle_src;
      let changed_files := if (changed : bool) then changed_files + 1 else changed_files in
      process_all candle_src rust_files' (processed_files + 1) changed_files
  end.

Definition main (script_dir : Path) : M unit :=
  let candle_src := script_dir ++ [L "packages"; L "candle"; L "src"] in
  let lib_rs := candle_src ++ [L "lib.rs"] in
  e ← path_exists candle_src;
  if negb e then
    print (ErrorSrcNotFound candle_src)
  else
    _ ← print (Say "Starting memory import refactoring...");
    _ ← print (WorkingDirectory candle_src);
    _ ← print (Say "Adding memory module declaration to lib.rs...");
    _ ← add_memory_module_to_lib lib_rs;
    _ ← print (Say "Processing Rust files...");
    rust_files ← rglob_rs candle_src;
    counts ← process_all candle_src rust_files 0 0;
    _ ← print (Say "Refactoring complete!");
    _ ← print (Processed counts.1);
    _ ← print (Modified counts.2);
    print (Say "Next steps: run cargo check, fix remaining imports, update re-exports").

(** ** fix_compilation_errors.py, fix 3 *)

Definition BASE_DIR : Path :=
  [L "Volumes"; L "samsung_t9"; L "paraphym"; L "packages"; L "candle"; L "src"].

(** [progresshub::types::ZeroOneOrMany::None], a literal. *)
Definition zero_one_or_many_none : pattern unit := fun s =>
  r ← lit (L "progresshub::types::ZeroOneOrMany::None") s;
  Some (tt, r).

Definition fix3 : M unit :=
  _ ← print (Say "[3/10] Fixing ZeroOneOrMany::None to ::Zero in qwen3_coder.rs...");
  let qwen_file := BASE_DIR ++ [L "providers"; L "qwen3_coder.rs"] in
  e ← path_exists qwen_file;
  if (e : bool) then
    content ← read_text qwen_file;
    let content :=
      re_sub zero_one_or_many_none
        (fun _ => L "progresshub::types::ZeroOneOrMany::Zero") content in
    _ ← write_text qwen_file content;
    print (Say "Fixed ZeroOneOrMany::None -> ::Zero")
  else
    print (Say "File not found").


(** ** fix_compilation_errors.py, fixes 1 and 2 *)

From Stdlib Require Import ZArith DecimalString.

(** The test on a line of the first loop of fix 1. *)
Definition is_test_marker (line : pystr) : bool :=
  startswith (L "mod tests {") (strip line)
  || bool_decide (strip line = L "#[cfg(test)]").

(** The first loop of fix 1 over [enumerate(lines)], from index [i] on,
    with the two variables it sets; it stops at the second marker. *)
Fixpoint test_starts (i : nat) (first_test_start : option nat) (lines : list pystr)
    : option nat * option nat :=
  match lines with
  | [] => (first_test_start, None)
  | line :: lines' =>
      if is_test_marker line then
        match first_test_start with
        | None => test_starts (S i) (Some i) lines'
        | Some _ => (first_test_start, Some i)
        end
      else test_starts (S i) first_test_start lines'
  end.

(** [line.count(c)] *)
Definition count_char (c : ascii) (line : pystr) : Z :=
  Z.of_nat (length (List.filter (Ascii.eqb c) line)).

(** [c in line] *)
Definition has_char (c : ascii) (line : pystr) : bool :=
  existsb (Ascii.eqb c) line.

(** The second loop of fix 1, over [range(second_test_start, len(lines))]
    from index [i] on: [rest] holds the lines from [i].  It gives
    [second_test_end], which stays [second_test_start] when the loop runs
    out. *)
Fixpoint test_end (second_test_start i : nat) (brace_count : Z) (rest : list pystr)
    : nat :=
  match rest with
  | [] => second_test_start
  | line :: rest' =>
      let brace_count :=
        if has_char "{" line then (brace_count + count_char "{" line)%Z
        else brace_count in
      let brace_count :=
        if has_char "}" line then (brace_count - count_char "}" line)%Z
        else brace_count in
      if (brace_count =? 0)%Z && (second_test_start <? i)%nat then i
      else test_end second_test_start (S i) brace_count rest'
  end.

(** The new text of fix 1, when it finds a second test module: [None]
    when it finds none.  [if second_test_start:] is false for [None] and
    for 0. *)
Definition without_second_tests (content : pystr) : option (pystr * nat * nat) :=
  let lines := split newline content in
  match (test_starts 0 None lines).2 with
  | Some second_test_start =>
      if (0 <? second_test_start)%nat then
        let second_test_end :=
          test_end second_test_start second_test_start 0
            (drop second_test_start lines) in
        let new_lines :=
          take second_test_start lines ++ drop (second_test_end + 1) lines in
        Some (join [newline] new_lines, second_test_start, second_test_end)
      else None
  | None => None
  end.

Definition decimal (n : nat) : string := NilEmpty.string_of_uint (Nat.to_uint n).

Definition orchestration_file : Path :=
  BASE_DIR ++ [L "domain"; L "chat"; L "orchestration.rs"].

Definition fix1 : M unit :=
  _ ← print (Say "[1/10] Fixing duplicate tests module in orchestration.rs...");
  e ← path_exists orchestration_file;
  if (e : bool) then
    content ← read_text orchestration_file;
    match without_second_tests content with
    | Some (new_content, second_test_start, second_test_end) =>
        _ ← write_text orchestration_file new_content;
        print (Say ("Removed duplicate tests module (lines "
                    +:+ decimal second_test_start +:+ "-"
                    +:+ decimal second_test_end +:+ ")"))
    | None => print (Say "No duplicate found")
    end
  else
    print (Say "File not found").

(** The text fix 2 looks for, and the text it appends. *)
Definition from_string_marker : pystr := L "impl From<String> for Error".

Definition new_impl : pystr :=
  newline
  :: join [newline]
       [L "impl From<String> for Error {";
        L "    fn from(s: String) -> Self {";
        L "        Error::Other(s)";
        L "    }";
        L "}";
        [];
        L "impl From<&str> for Error {";
        L "    fn from(s: &str) -> Self {";
        L "        Error::Other(s.to_string())";
        L "    }";
        L "}"]
  ++ [newline].

Definition with_from_string (content : pystr) : pystr :=
  rstrip content ++ [newline] ++ new_impl ++ [newline].

Definition error_file : Path := BASE_DIR ++ [L "memory"; L "utils"; L "error.rs"].

Definition fix2 : M unit :=
  _ ← print (Say "[2/10] Adding From<String> impl for MemoryError...");
  e ← path_exists error_file;
  if (e : bool) then
    content ← read_text error_file;
    if negb (contains from_string_marker content) then
      _ ← write_text error_file (with_from_string content);
      print (Say "Added From<String> and From<&str> implementations")
    else
      print (Say "From<String> already exists")
  else
    print (Say "File not found").
(** The classification of one item as section 4.4 of the specification
    words it: an item that begins with the managed-subtree prefix or is a
    reserved sentinel stays, any other item gets the prefix. *)
Definition spec_classify_item (item : pystr) : pystr :=
  if startswith (L "memory::") item || is_reserved item then item
  else L "memory::" ++ item.

Definition nonempty (item : pystr) : bool := negb (bool_decide (item = [])).

(** The characters of the capturing group of [pattern1]. *)
Definition path_char (c : ascii) : bool := is_word c || Ascii.eqb c ":".

(** The lines [main] prints before and after the loop. *)
Definition main_banner (candle_src : Path) : list msg :=
  [Say "Starting memory import refactoring..."; WorkingDirectory candle_src;
   Say "Adding memory module declaration to lib.rs..."].

Definition main_summary (counts : nat * nat) : list msg :=
  [Say "Refactoring complete!"; Processed counts.1; Modified counts.2;
   Say "Next steps: run cargo check, fix remaining imports, update re-exports"].


(** The opening braces less the closing braces of the given lines. *)
Definition brace_balance (lines : list pystr) : Z :=
  foldr (fun line b => (count_char "{" line - count_char "}" line + b)%Z) 0%Z lines.

(** A line of the leading block of the anchor file: blank, a comment, or
    a [#!] directive. *)
Definition blank_or_comment (line : pystr) : Prop :=
  strip line = []
  \/ startswith (L "//") (strip line) = true
  \/ startswith (L "#!") (strip line) = true.



(** What stands behind a text in which no match may start: nothing, or a
    character that is no white space and neither [s] nor [e]. *)
Definition starts_clear (s : pystr) : Prop :=
  match s with
  | [] => True
  | d :: _ => is_space d = false /\ d <> "s" /\ d <> "e"
  end.


(** ** Concrete trees, for the examples *)

Definition plain_file (text : pystr) : file :=
  {| content := text; read_error := None; write_error := None |}.

Definition example_root : Path := [L "repo"].
Definition example_src : Path := example_root ++ [L "packages"; L "candle"; L "src"].
Definition example_lib : Path := example_src ++ [L "lib.rs"].
Definition example_managed : Path := example_src ++ [L "memory"; L "store.rs"].
Definition example_unmanaged : Path := example_src ++ [L "agent.rs"].

Definition world_of (files : gmap Path node) : world :=
  {| fs := files; writes := []; stdout := [] |}.

(** A source tree without its anchor file [lib.rs]. *)
Definition tree_without_anchor : world :=
  world_of
    (<[example_src := Dir]>
     (<[example_managed := File (plain_file (L "use crate::cognitive::types;"))]>
      (<[example_unmanaged := File (plain_file (L "use paraphym_memory::Widget;"))]> ∅))).

(** A source tree with an anchor file that declares one module. *)
Definition tree_with_anchor : world :=
  world_of
    (<[example_src := Dir]>
     (<[example_lib := File (plain_file (L "pub mod agent;"))]>
      (<[example_managed := File (plain_file (L "use crate::{Error, manager::Store};"))]> ∅))).

(** A tree with a file that cannot be read and one that cannot be
    written. *)
Definition tree_with_bad_files : world :=
  world_of
    (<[example_src := Dir]>
     (<[example_managed :=
          File {| content := L "use crate::a;"; read_error := Some UnicodeDecodeError;
                  write_error := None |}]>
      (<[example_unmanaged :=
           File {| content := L "use paraphym_memory::W;"; read_error := None;
                   write_error := Some PermissionError |}]> ∅))).

Definition qwen_file : Path := BASE_DIR ++ [L "providers"; L "qwen3_coder.rs"].

(** The provider file of fix 3, with nothing to fix in it. *)
Definition tree_with_fixed_provider : world :=
  world_of (<[qwen_file := File (plain_file (L "fn main() {}"))]> ∅).



(** ** Tactics *)

(** One step of the option monad on a known result. *)
Ltac bind_step :=
  match goal with
  | |- context [@mbind option _ _ _ ?f (Some ?x)] =>
      change (@mbind option _ _ _ f (Some x)) with (f x); cbv beta
  end.

(** Unfolds the monad of the scripts. *)
Ltac run :=
  unfold mbind, M_bind, bind, mret, M_ret, ret, raise, try_except, print,
    path_exists, read_text, write_text in *; cbn beta iota.

(** * Properties *)

(** ** Characters *)

Lemma is_space_not_word c : is_space c = true -> is_word c = false.
Proof. destruct c as [[] [] [] [] [] [] [] []]; vm_compute; congruence. Qed.

Lemma is_word_not_space c : is_word c = true -> is_space c = false.
Proof. destruct c as [[] [] [] [] [] [] [] []]; vm_compute; congruence. Qed.

(** ** Literals and prefixes *)

Lemma lit_app p r : lit p (p ++ r) = Some r.
Proof. induction p as [|a p IH]; simpl; [done|]. by rewrite Ascii.eqb_refl. Qed.

Lemma lit_inv p s r : lit p s = Some r -> s = p ++ r.
Proof.
  revert s; induction p as [|a p IH]; intros s; simpl.
  - by intros [= ->].
  - destruct s as [|c s]; [done|].
    destruct (Ascii.eqb_spec a c) as [->|]; [|done].
    intros H. by rewrite (IH _ H).
Qed.

Lemma startswith_app p r : startswith p (p ++ r) = true.
Proof. induction p as [|a p IH]; simpl; [done|]. by rewrite Ascii.eqb_refl. Qed.

Lemma startswith_inv p s : startswith p s = true -> exists r, s = p ++ r.
Proof.
  revert s; induction p as [|a p IH]; intros s; simpl.
  - by exists s.
  - destruct s as [|c s]; [done|].
    destruct (Ascii.eqb_spec a c) as [->|]; [|done]. simpl.
    intros H. destruct (IH _ H) as [r ->]. by exists r.
Qed.

Lemma startswith_lit p s : startswith p s = matches (fun s => r ← lit p s; Some (tt, r)) s.
Proof.
  unfold matches. revert s; induction p as [|a p IH]; intros s; simpl; [done|].
  destruct s as [|c s]; [done|].
  destruct (Ascii.eqb a c); simpl; [|done]. apply IH.
Qed.

(** ** Runs of a character class *)

Lemma take_skip_while f s : take_while f s ++ skip_while f s = s.
Proof. induction s as [|c s IH]; simpl; [done|]. destruct (f c); simpl; by rewrite ?IH. Qed.

Lemma take_while_Forall f s : Forall (fun c => f c = true) (take_while f s).
Proof.
  induction s as [|c s IH]; simpl; [constructor|].
  destruct (f c) eqn:E; constructor; done.
Qed.

Lemma skip_while_length f s : length (skip_while f s) <= length s.
Proof. induction s as [|c s IH]; simpl; [lia|]. destruct (f c); simpl; lia. Qed.

Lemma skip_while_head f s c r : skip_while f s = c :: r -> f c = false.
Proof.
  induction s as [|d s IH]; simpl; [done|].
  destruct (f d) eqn:E; [done|]. by intros [= -> ->].
Qed.

Lemma skip_while_stop f a r :
  Forall (fun c => f c = true) a ->
  match r with c :: _ => f c = false | [] => True end ->
  skip_while f (a ++ r) = r.
Proof.
  intros Ha Hr. induction Ha as [|c a Hc _ IH]; simpl.
  - destruct r as [|c r]; simpl; [done|]. by rewrite Hr.
  - by rewrite Hc.
Qed.

Lemma take_while_stop f a r :
  Forall (fun c => f c = true) a ->
  match r with c :: _ => f c = false | [] => True end ->
  take_while f (a ++ r) = a.
Proof.
  intros Ha Hr. induction Ha as [|c a Hc _ IH]; simpl.
  - destruct r as [|c r]; simpl; [done|]. by rewrite Hr.
  - by rewrite Hc, IH.
Qed.

Lemma many1_inv f s r :
  many1 f s = Some r ->
  exists c a, s = c :: a ++ r /\ f c = true /\ Forall (fun c => f c = true) a
              /\ match r with d :: _ => f d = false | [] => True end.
Proof.
  unfold many1. destruct s as [|c s]; [done|].
  destruct (f c) eqn:E; [|done]. intros [= <-].
  exists c, (take_while f s). rewrite take_skip_while.
  split_and!; [done|done|apply take_while_Forall|].
  destruct (skip_while f s) as [|d r] eqn:E'; [done|]. by eapply skip_while_head.
Qed.

Lemma many1_app f c a r :
  f c = true -> Forall (fun c => f c = true) a ->
  match r with d :: _ => f d = false | [] => True end ->
  many1 f (c :: a ++ r) = Some r.
Proof. intros Hc Ha Hr. unfold many1. rewrite Hc. f_equal. by apply skip_while_stop. Qed.

Lemma many1_length f s r : many1 f s = Some r -> length r < length s.
Proof.
  unfold many1. destruct s as [|c s]; [done|]. destruct (f c); [|done].
  intros [= <-]. pose proof (skip_while_length f s). simpl. lia.
Qed.

Lemma lit_length p s r : lit p s = Some r -> length s = length p + length r.
Proof. intros H. rewrite (lit_inv _ _ _ H). by rewrite length_app. Qed.

(** ** The scan of [re.sub] *)

(** Every match consumes at least one character. *)
Definition shrinks {A} (pat : pattern A) : Prop :=
  forall s g rest, pat s = Some (g, rest) -> length rest < length s.

Section re_sub.
Context {A : Type} (pat : pattern A) (repl : A -> pystr).
Hypothesis pat_shrinks : shrinks pat.

Lemma re_sub_fuel_enough n s :
  length s <= n -> re_sub_fuel pat repl n s = re_sub pat repl s.
Proof.
  unfold re_sub. revert s.
  induction (lt_wf n) as [n _ IH]. intros s Hn.
  destruct n as [|n]; [destruct s; simpl in *; [done|lia]|].
  destruct s as [|c s]; [done|]. simpl in *.
  destruct (pat (c :: s)) as [[g rest]|] eqn:E.
  - f_equal. pose proof (pat_shrinks _ _ _ E) as Hl. simpl in Hl.
    rewrite (IH n) by lia. symmetry. rewrite (IH (length s)) by lia. done.
  - f_equal. rewrite (IH n) by lia. done.
Qed.

Lemma re_sub_nil : re_sub pat repl [] = [].
Proof. done. Qed.

Lemma re_sub_cons c s :
  re_sub pat repl (c :: s) =
  match pat (c :: s) with
  | Some (g, rest) => repl g ++ re_sub pat repl rest
  | None => c :: re_sub pat repl s
  end.
Proof.
  unfold re_sub at 1. simpl.
  destruct (pat (c :: s)) as [[g rest]|] eqn:E; [|done].
  f_equal. apply re_sub_fuel_enough.
  pose proof (pat_shrinks _ _ _ E) as Hl. simpl in Hl. lia.
Qed.

Lemma re_sub_match s g rest :
  pat s = Some (g, rest) -> re_sub pat repl s = repl g ++ re_sub pat repl rest.
Proof.
  intros E. destruct s as [|c s].
  - apply pat_shrinks in E. simpl in E. lia.
  - by rewrite re_sub_cons, E.
Qed.

Lemma re_sub_no_match c s :
  pat (c :: s) = None -> re_sub pat repl (c :: s) = c :: re_sub pat repl s.
Proof. intros E. by rewrite re_sub_cons, E. Qed.

(** A text in which the pattern matches nowhere is left as it is. *)
Lemma re_sub_id s :
  (forall p t, s = p ++ t -> pat t = None) -> re_sub pat repl s = s.
Proof.
  induction s as [|c s IH]; intros H; [done|].
  rewrite re_sub_no_match by (by apply (H [])).
  f_equal. apply IH. intros p t ->. by apply (H (c :: p)).
Qed.
End re_sub.

(** ** strip, split and join *)

Lemma skip_while_fixed f s :
  match s with c :: _ => f c = false | [] => True end -> skip_while f s = s.
Proof. destruct s as [|c s]; simpl; [done|]. by intros ->. Qed.

Lemma skip_while_idem f s : skip_while f (skip_while f s) = skip_while f s.
Proof.
  apply skip_while_fixed. destruct (skip_while f s) as [|c r] eqn:E; [done|].
  by eapply skip_while_head.
Qed.

Lemma skip_while_snoc f a c :
  f c = false -> skip_while f (a ++ [c]) = skip_while f a ++ [c].
Proof.
  intros Hc. induction a as [|d a IH]; simpl; [by rewrite Hc|].
  by destruct (f d).
Qed.

Lemma rstrip_cons_nonspace c s :
  is_space c = false -> exists s', rstrip (c :: s) = c :: s'.
Proof.
  intros Hc. unfold rstrip. simpl. rewrite skip_while_snoc by done.
  rewrite rev_app_distr. simpl. by eexists.
Qed.

Lemma rstrip_idem s : rstrip (rstrip s) = rstrip s.
Proof. unfold rstrip. by rewrite rev_involutive, skip_while_idem. Qed.

Lemma strip_idem s : strip (strip s) = strip s.
Proof.
  unfold strip. unfold lstrip at 1.
  destruct (lstrip s) as [|c r] eqn:E; [done|].
  pose proof (skip_while_head _ _ _ _ E) as Hc.
  destruct (rstrip_cons_nonspace c r Hc) as [s' Hs']. rewrite Hs'.
  rewrite skip_while_fixed by done. rewrite <- Hs'. apply rstrip_idem.
Qed.

(** A stripped, non-empty string starts and ends with a character that is
    not white space. *)
Lemma strip_nonspace_head s c r : strip s = c :: r -> is_space c = false.
Proof.
  unfold strip. destruct (lstrip s) as [|d t] eqn:E; [done|].
  pose proof (skip_while_head _ _ _ _ E) as Hd.
  destruct (rstrip_cons_nonspace d t Hd) as [s' ->]. by intros [= <- _].
Qed.

Lemma rstrip_nonspace_last s a c : rstrip s = a ++ [c] -> is_space c = false.
Proof.
  unfold rstrip. intros H. apply (f_equal (@rev _)) in H.
  rewrite rev_involutive, rev_app_distr in H. simpl in H.
  by eapply skip_while_head.
Qed.

Lemma strip_nonspace_last s a c : strip s = a ++ [c] -> is_space c = false.
Proof. apply rstrip_nonspace_last. Qed.

Lemma split_nonempty sep s : split sep s <> [].
Proof.
  destruct s as [|c s]; simpl; [done|].
  destruct (Ascii.eqb c sep); [done|]. by destruct (split sep s).
Qed.

(** The split is flat: a separator splits wherever it stands. *)
Lemma split_app sep x y :
  split sep (x ++ sep :: y) = split sep x ++ split sep y.
Proof.
  induction x as [|c x IH]; simpl.
  - by rewrite Ascii.eqb_refl.
  - destruct (Ascii.eqb c sep); [by rewrite IH|].
    rewrite IH. pose proof (split_nonempty sep x).
    by destruct (split sep x).
Qed.

Lemma split_no_sep sep x :
  Forall (fun c => c <> sep) x -> split sep x = [x].
Proof.
  induction 1 as [|c x Hc _ IH]; simpl; [done|].
  destruct (Ascii.eqb_spec c sep); [done|]. by rewrite IH.
Qed.

Lemma split_length sep s :
  length (split sep s) = S (length (List.filter (Ascii.eqb sep) s)).
Proof.
  induction s as [|c s IH]; simpl; [done|].
  rewrite (Ascii.eqb_sym sep c).
  destruct (Ascii.eqb c sep); simpl; [by rewrite IH|].
  pose proof (split_nonempty sep s).
  destruct (split sep s); [done|]. simpl in *. done.
Qed.

(** ** The items of a bracketed statement *)



Lemma replace2_step_stripped new_items item :
  strip item = item ->
  replace2_step new_items item =
  if nonempty item then new_items ++ [spec_classify_item item] else new_items.
Proof.
  intros Hs. unfold replace2_step, spec_classify_item, nonempty. rewrite Hs.
  destruct item as [|c item]; [by rewrite bool_decide_eq_true_2|].
  rewrite bool_decide_eq_false_2 by done. simpl negb at 3.
  rewrite <- negb_orb.
  destruct (startswith (L "memory::") (c :: item) || is_reserved (c :: item));
    simpl; [done|].
  by destruct (_ || _).
Qed.

Lemma fold_replace2_step items new_items :
  Forall (fun item => strip item = item) items ->
  fold_left replace2_step items new_items =
  new_items ++ map spec_classify_item (List.filter nonempty items).
Proof.
  intros H. revert new_items.
  induction H as [|item items Hi _ IH]; intros new_items; simpl.
  - by rewrite app_nil_r.
  - rewrite IH, replace2_step_stripped by done.
    destruct (nonempty item); simpl; [|done]. by rewrite <- app_assoc.
Qed.

Lemma item_list_of_stripped items :
  Forall (fun item => strip item = item) (item_list_of items).
Proof.
  unfold item_list_of. apply Forall_map, Forall_forall.
  intros x _. apply strip_idem.
Qed.

(** The loop of [replace2] classifies the non-empty items one by one, in
    their order. *)
Lemma replace2_items_map items :
  replace2_items items =
  map spec_classify_item (List.filter nonempty (item_list_of items)).
Proof.
  unfold replace2_items. by rewrite fold_replace2_step by apply item_list_of_stripped.
Qed.

Lemma item_list_of_app x y :
  item_list_of (x ++ "," :: y) = item_list_of x ++ item_list_of y.
Proof. unfold item_list_of. by rewrite split_app, map_app. Qed.

Lemma replace2_items_app x y :
  replace2_items (x ++ "," :: y) = replace2_items x ++ replace2_items y.
Proof.
  rewrite !replace2_items_map, item_list_of_app.
  by rewrite List.filter_app, map_app.
Qed.

(** ** The patterns *)

(** The head common to the three import patterns: [use], white space and
    a literal. *)
Lemma use_head_inv k s r :
  (r ← lit (L "use") s; r ← many1 is_space r; lit k r) = Some r ->
  exists c ws, s = L "use" ++ c :: ws ++ k ++ r
               /\ is_space c = true /\ Forall (fun c => is_space c = true) ws
               /\ match k ++ r with d :: _ => is_space d = false | [] => True end.
Proof.
  intros H.
  destruct (lit (L "use") s) as [r1|] eqn:E1; [|done]. simpl in H.
  destruct (many1 is_space r1) as [r2|] eqn:E2; [|done]. simpl in H.
  apply lit_inv in E1, H. subst s r2.
  destruct (many1_inv _ _ _ E2) as (c & ws & -> & Hc & Hws & Hd).
  exists c, ws. done.
Qed.

Lemma use_head_app k c ws r :
  is_space c = true -> Forall (fun c => is_space c = true) ws ->
  match k ++ r with d :: _ => is_space d = false | [] => True end ->
  (r ← lit (L "use") (L "use" ++ c :: ws ++ k ++ r); r ← many1 is_space r; lit k r)
  = Some r.
Proof.
  intros Hc Hws Hk. rewrite lit_app. bind_step.
  rewrite (many1_app is_space c ws (k ++ r)) by done. bind_step. apply lit_app.
Qed.

Lemma external_pattern_inv s g rest :
  external_pattern s = Some (g, rest) ->
  exists c ws, s = L "use" ++ c :: ws ++ L "paraphym_memory::" ++ rest
               /\ is_space c = true /\ Forall (fun c => is_space c = true) ws.
Proof.
  unfold external_pattern. intros H.
  apply bind_Some in H as (r1 & E1 & H).
  apply bind_Some in H as (r2 & E2 & H).
  apply bind_Some in H as (r3 & E3 & H).
  injection H as _ ->.
  apply lit_inv in E1, E3. subst s r2.
  destruct (many1_inv _ _ _ E2) as (c & ws & -> & Hc & Hws & _).
  by exists c, ws.
Qed.

Lemma external_pattern_app c ws rest :
  is_space c = true -> Forall (fun c => is_space c = true) ws ->
  external_pattern (L "use" ++ c :: ws ++ L "paraphym_memory::" ++ rest) = Some (tt, rest).
Proof.
  intros Hc Hws. unfold external_pattern. rewrite lit_app. bind_step.
  rewrite (many1_app is_space c ws) by done. bind_step.
  by rewrite lit_app.
Qed.

Lemma external_pattern_shrinks : shrinks external_pattern.
Proof.
  intros s g rest H.
  destruct (external_pattern_inv _ _ _ H) as (c & ws & -> & _).
  rewrite !length_app. simpl. rewrite !length_app. simpl. lia.
Qed.

Lemma module_path_tail_spec s :
  let (g, r) := module_path_tail s in
  s = g ++ r /\ Forall (fun c => path_char c = true) g
  /\ match r with d :: _ => is_word d = false | [] => True end.
Proof.
  induction s as [s IH] using (induction_ltof1 _ (@length ascii)).
  unfold ltof in IH.
  destruct s as [|c s]; simpl; [done|].
  destruct (is_word c) eqn:Ec.
  - specialize (IH s ltac:(simpl; lia)).
    destruct (module_path_tail s) as [g r]. destruct IH as (-> & Hg & Hr).
    split_and!; try done. constructor; [|done]. unfold path_char. by rewrite Ec.
  - assert (Hdef : ([] : pystr) ++ c :: s = c :: s
                   /\ Forall (fun c => path_char c = true) []
                   /\ is_word c = false) by done.
    destruct (Ascii.eqb_spec c ":") as [->|]; [|by destruct c as [[] [] [] [] [] [] [] []]].
    destruct s as [|c2 s]; [done|].
    destruct (Ascii.eqb_spec c2 ":") as [->|];
      [|by destruct c2 as [[] [] [] [] [] [] [] []]].
    destruct s as [|d s]; [done|].
    destruct (is_word d) eqn:Ed; [|done].
    specialize (IH s ltac:(simpl; lia)).
    destruct (module_path_tail s) as [g r]. destruct IH as (-> & Hg & Hr).
    split_and!; try done. repeat (constructor; [unfold path_char; by rewrite ?Ed|]). done.
Qed.

Lemma module_path_inv r g rest :
  module_path r = Some (g, rest) ->
  r = g ++ rest
  /\ (exists c g', g = c :: g' /\ is_word c = true)
  /\ Forall (fun c => path_char c = true) g
  /\ match rest with d :: _ => is_word d = false | [] => True end.
Proof.
  unfold module_path. destruct r as [|c r]; [done|].
  destruct (is_word c) eqn:Ec; [|done].
  pose proof (module_path_tail_spec r) as H.
  destruct (module_path_tail r) as [g' r']. destruct H as (-> & Hg & Hr).
  intros [= <- <-]. split_and!; try done.
  - by exists c, g'.
  - constructor; [|done]. unfold path_char. by rewrite Ec.
Qed.

Lemma pattern1_inv s g rest :
  pattern1 s = Some (g, rest) ->
  exists c ws, s = L "use" ++ c :: ws ++ L "crate::" ++ g ++ rest
               /\ is_space c = true /\ Forall (fun c => is_space c = true) ws
               /\ startswith (L "memory::") (g ++ rest) = false
               /\ module_path (g ++ rest) = Some (g, rest).
Proof.
  unfold pattern1. intros H.
  apply bind_Some in H as (r1 & E1 & H).
  apply bind_Some in H as (r2 & E2 & H).
  apply bind_Some in H as (r3 & E3 & H).
  destruct (startswith (L "memory::") r3) eqn:Eg; [done|].
  apply lit_inv in E1, E3. subst s r2.
  destruct (many1_inv _ _ _ E2) as (c & ws & -> & Hc & Hws & _).
  destruct (module_path_inv _ _ _ H) as (-> & _).
  by exists c, ws.
Qed.

Lemma pattern1_app c ws r g rest :
  is_space c = true -> Forall (fun c => is_space c = true) ws ->
  startswith (L "memory::") r = false ->
  module_path r = Some (g, rest) ->
  pattern1 (L "use" ++ c :: ws ++ L "crate::" ++ r) = Some (g, rest).
Proof.
  intros Hc Hws Hg Hp. unfold pattern1. rewrite lit_app. bind_step.
  rewrite (many1_app is_space c ws) by done. bind_step.
  rewrite lit_app. bind_step. by rewrite Hg.
Qed.

Lemma pattern1_shrinks : shrinks pattern1.
Proof.
  intros s g rest H.
  destruct (pattern1_inv _ _ _ H) as (c & ws & -> & _).
  rewrite !length_app. simpl. rewrite !length_app. simpl. rewrite !length_app. lia.
Qed.


Lemma pattern2_app c ws items rest :
  is_space c = true -> Forall (fun c => is_space c = true) ws ->
  items <> [] -> Forall (fun c => not_rbrace c = true) items ->
  pattern2 (L "use" ++ c :: ws ++ L "crate::{" ++ items ++ "}" :: rest)
  = Some (items, rest).
Proof.
  intros Hc Hws Hne Hi. unfold pattern2. rewrite lit_app. bind_step.
  rewrite (many1_app is_space c ws) by done. bind_step.
  rewrite lit_app. bind_step.
  destruct items as [|d a]; [done|]. apply Forall_cons in Hi as [Hd Ha].
  assert (Hb : not_rbrace "}" = false) by done.
  change ((d :: a) ++ "}" :: rest) with (d :: a ++ "}" :: rest).
  rewrite (many1_app not_rbrace d a) by done. bind_step.
  change ("}" :: rest) with (L "}" ++ rest). rewrite lit_app. bind_step.
  change (d :: a ++ L "}" ++ rest) with ((d :: a) ++ "}" :: rest).
  rewrite take_while_stop by (done || by constructor). done.
Qed.


Lemma zero_one_or_many_none_shrinks : shrinks zero_one_or_many_none.
Proof.
  intros s g rest H. unfold zero_one_or_many_none in H.
  apply bind_Some in H as (r & E & H). injection H as _ ->.
  apply lit_length in E. simpl in E. lia.
Qed.

(** The three passes, unfolded one step. *)
Lemma transform_external_imports_cons c s :
  transform_external_imports (c :: s) =
  match external_pattern (c :: s) with
  | Some (_, rest) => external_replacement ++ transform_external_imports rest
  | None => c :: transform_external_imports s
  end.
Proof.
  unfold transform_external_imports.
  rewrite re_sub_cons by apply external_pattern_shrinks.
  by destruct (external_pattern (c :: s)) as [[? ?]|].
Qed.

(** ** The bracketed statement *)

Lemma replace2_step_spec new_items item :
  replace2_step new_items item =
  if nonempty (strip item) then new_items ++ [spec_classify_item (strip item)]
  else new_items.
Proof.
  rewrite <- (replace2_step_stripped new_items (strip item)) by apply strip_idem.
  unfold replace2_step. by rewrite strip_idem.
Qed.




(** C4: the item list is split at every comma, whatever brackets stand
    around it.  A statement with a nested group [{x,y}] is matched up to
    the first closing brace, the comma inside the nested group separates
    two items, and the statement is rewritten from these pieces; the
    rewriting is a total function and raises nothing. *)
Theorem bracketed_split_is_flat (pre x y rest : pystr)
    (Hbrace : forallb not_rbrace (pre ++ x ++ y) = true) :
  let items := pre ++ "{" :: x ++ "," :: y in
  pattern2 (L "use crate::{" ++ items ++ "}" :: rest) = Some (items, rest)
  /\ item_list_of items = item_list_of (pre ++ "{" :: x) ++ item_list_of y
  /\ replace2_items items = replace2_items (pre ++ "{" :: x) ++ replace2_items y
  /\ (forall a b : pystr, split "," (a ++ "," :: b) = split "," a ++ split "," b)
  /\ (forall s : pystr, length (split "," s) = S (length (List.filter (Ascii.eqb ",") s)))
  /\ (forall content w, exists w',
        transform_internal_memory_imports_io content w
        = (Return (transform_internal_memory_imports content), w'))
  /\ transform_internal_memory_imports (L "use crate::{a::{b, c}, d};")
     = L "use crate::{memory::a::{b, memory::c}, d};".
Proof.
  intros items. split_and!.
  - apply (pattern2_app " " []); [done|constructor| |].
    + unfold items. by destruct pre.
    + pose proof (proj1 (forallb_forall _ _) Hbrace) as Hall.
      apply List.Forall_forall in Hall. clear Hbrace. rename Hall into Hbrace.
      rewrite !Forall_app in Hbrace. destruct Hbrace as (Hp & Hx & Hy).
      unfold items. rewrite Forall_app. split; [done|].
      constructor; [done|]. rewrite Forall_app. split; [done|]. by constructor.
  - unfold items.
    change (pre ++ "{" :: x ++ "," :: y) with (pre ++ ("{" :: x) ++ "," :: y).
    rewrite app_assoc. apply item_list_of_app.
  - unfold items.
    change (pre ++ "{" :: x ++ "," :: y) with (pre ++ ("{" :: x) ++ "," :: y).
    rewrite app_assoc. apply replace2_items_app.
  - intros a b. apply split_app.
  - intros s. apply split_length.
  - intros content w.
    unfold transform_internal_memory_imports_io, mbind, M_bind, bind, mret, M_ret,
      ret, print.
    destruct (0 <? internal_changes content)%nat; eauto.
  - vm_compute. reflexivity.
Qed.

Lemma bracketed_split_is_flat_witness :
  forallb not_rbrace (L "a::" ++ L "b" ++ L " c") = true
  /\ pattern2 (L "use crate::{" ++ (L "a::" ++ "{" :: L "b" ++ "," :: L " c") ++ "}" :: L ", d};")
     = Some (L "a::{b, c", L ", d};").
Proof.
  split; [reflexivity|].
  apply (bracketed_split_is_flat (L "a::") (L "b") (L " c") (L ", d};")).
  reflexivity.
Defined.

(** ** The effects *)

Lemma printed_logged m out w : printed m (logged out w) = logged (out ++ [m]) w.
Proof. unfold printed, logged. simpl. by rewrite app_assoc. Qed.

Lemma logged_nil w : logged [] w = w.
Proof. destruct w. unfold logged. simpl. by rewrite app_nil_r. Qed.

Lemma logged_logged a b w : logged b (logged a w) = logged (a ++ b) w.
Proof. unfold logged. simpl. by rewrite app_assoc. Qed.

Lemma printed_as_logged m w : printed m w = logged [m] w.
Proof. done. Qed.

Lemma transform_external_imports_io_run content w :
  exists out, transform_external_imports_io content w
              = (Return (transform_external_imports content), logged out w).
Proof.
  unfold transform_external_imports_io. run.
  destruct (0 <? external_changes content)%nat.
  - by eexists [_].
  - exists []. by rewrite logged_nil.
Qed.

Lemma transform_internal_memory_imports_io_run content w :
  exists out, transform_internal_memory_imports_io content w
              = (Return (transform_internal_memory_imports content), logged out w).
Proof.
  unfold transform_internal_memory_imports_io. run.
  destruct (0 <? internal_changes content)%nat.
  - by eexists [_].
  - exists []. by rewrite logged_nil.
Qed.

(** What [process_rust_file] does to a file it can read. *)
Lemma process_rust_file_readable p src w f :
  fs w !! p = Some (File f) -> read_error f = None ->
  let c' := rewritten_content p src (content f) in
  exists out,
    process_rust_file p src w =
    if bool_decide (c' = content f) then (Return false, logged out w)
    else match write_error f with
         | None => (Return true, stored p (with_content c' f) (logged out w))
         | Some e => (Return false, printed (ErrorProcessing p e) (logged out w))
         end.
Proof.
  intros Hp Hr c'. unfold process_rust_file.
  unfold try_except at 1. unfold mbind at 1, M_bind, bind at 1.
  unfold read_text at 1. rewrite Hp, Hr.
  unfold mbind at 1, bind at 1.
  destruct (transform_external_imports_io_run (content f) w) as [out1 E1].
  rewrite E1.
  assert (exists out2,
    (if is_memory_file p src
     then transform_internal_memory_imports_io (transform_external_imports (content f))
     else mret (transform_external_imports (content f))) (logged out1 w)
    = (Return c', logged (out1 ++ out2) w)) as [out2 E2].
  { unfold c', rewritten_content. destruct (is_memory_file p src).
    - destruct (transform_internal_memory_imports_io_run
                  (transform_external_imports (content f)) (logged out1 w)) as [out2 E2].
      exists out2. by rewrite E2, logged_logged.
    - exists []. by rewrite app_nil_r. }
  unfold mbind at 1, bind at 1. rewrite E2.
  exists (out1 ++ out2).
  destruct (bool_decide (c' = content f)); simpl; [done|].
  unfold mbind at 1, bind at 1, write_text. simpl. rewrite Hp.
  destruct (write_error f); [|done]. run. done.
Qed.

(** A file that cannot be read is reported and left alone. *)
Lemma process_rust_file_unreadable p src w e :
  read_text p w = (Raise e, w) ->
  process_rust_file p src w = (Return false, printed (ErrorProcessing p e) w).
Proof.
  intros Hr. unfold process_rust_file.
  unfold try_except at 1. unfold mbind at 1, M_bind, bind at 1. rewrite Hr.
  run. done.
Qed.

Lemma read_text_cases p w :
  (exists f, fs w !! p = Some (File f) /\ read_error f = None)
  \/ (exists e, read_text p w = (Raise e, w)).
Proof.
  unfold read_text. destruct (fs w !! p) as [[|f]|] eqn:E; [by right; eexists..| |by right; eexists].
  destruct (read_error f) eqn:Er; [by right; eexists|]. left. by exists f.
Qed.

(** [process_rust_file] raises nothing. *)
Lemma process_rust_file_total p src w :
  exists b w', process_rust_file p src w = (Return b, w').
Proof.
  destruct (read_text_cases p w) as [(f & Hp & Hr)|[e He]].
  - destruct (process_rust_file_readable p src w f Hp Hr) as [out ->].
    destruct (bool_decide _); [by eauto|]. destruct (write_error f); eauto.
  - rewrite (process_rust_file_unreadable _ _ _ _ He). eauto.
Qed.

(** ** The anchor file *)

Lemma re_search_multiline_after_newline {A} (pat : pattern A) bol a t :
  matches pat t = true -> re_search_multiline pat bol (a ++ newline :: t) = true.
Proof.
  intros Ht. revert bol. induction a as [|c a IH]; intros bol; simpl.
  - apply orb_true_iff. right.
    destruct t as [|d t]; simpl; by rewrite Ht.
  - apply orb_true_iff. right. apply IH.
Qed.

Lemma decl_line_matches x : matches memory_decl_pattern (decl_line ++ x) = true.
Proof. reflexivity. Qed.

Lemma py_insert_three {A} i (x y z : A) l :
  py_insert (i + 2) z (py_insert (i + 1) y (py_insert i x l))
  = take i l ++ x :: y :: z :: drop i l.
Proof.
  unfold py_insert.
  destruct (decide (i <= length l)) as [Hi|Hi].
  - assert (Hl : length (take i l) = i) by (rewrite length_take; lia).
    assert (E1 : take (i + 1) (take i l ++ x :: drop i l) = take i l ++ [x]).
    { rewrite take_app_ge by lia. rewrite Hl.
      replace (i + 1 - i) with 1 by lia. done. }
    assert (E2 : drop (i + 1) (take i l ++ x :: drop i l) = drop i l).
    { rewrite drop_app_ge by lia. rewrite Hl.
      replace (i + 1 - i) with 1 by lia. done. }
    rewrite E1, E2.
    assert (Hl2 : length (take i l ++ [x]) = i + 1) by (rewrite length_app; simpl; lia).
    rewrite take_app_ge by lia. rewrite drop_app_ge by lia. rewrite Hl2.
    replace (i + 2 - (i + 1)) with 1 by lia. simpl.
    by rewrite <- !app_assoc.
  - rewrite !(take_ge l), !(drop_ge l) by lia.
    rewrite (take_ge (l ++ [x])), (drop_ge (l ++ [x])) by (rewrite length_app; simpl; lia).
    rewrite take_ge, drop_ge by (rewrite !length_app; simpl; lia).
    by rewrite <- !app_assoc.
Qed.

Lemma join_cons sep x y l : join sep (x :: y :: l) = x ++ sep ++ join sep (y :: l).
Proof. done. Qed.

Lemma join_app_cons sep a x l :
  join sep (a ++ x :: l) =
  match a with [] => [] | _ => join sep a ++ sep end ++ join sep (x :: l).
Proof.
  induction a as [|y a IH]; [done|].
  destruct a as [|y' a].
  - simpl. by rewrite <- app_assoc.
  - change ((y :: y' :: a) ++ x :: l) with (y :: (y' :: a) ++ x :: l).
    change ((y' :: a) ++ x :: l) with (y' :: (a ++ x :: l)) at 1.
    rewrite join_cons. change (y' :: a ++ x :: l) with ((y' :: a) ++ x :: l).
    rewrite IH. rewrite join_cons. by rewrite <- !app_assoc.
Qed.

(** The lines the fallback branch builds. *)
Lemma with_memory_module_lines content :
  last (re_finditer_ends pub_mod_pattern content) = None ->
  let lines := split newline content in
  let i := insert_line_of lines in
  with_memory_module content =
  join [newline] (take i lines ++ doc_line :: decl_line :: [] :: drop i lines).
Proof.
  intros H lines i. unfold with_memory_module. rewrite H.
  fold lines. fold i. by rewrite py_insert_three.
Qed.

(** The text the function writes declares the module, whatever the text
    it read. *)
Lemma with_memory_module_declared content :
  memory_module_declared (with_memory_module content) = true.
Proof.
  unfold memory_module_declared.
  destruct (last (re_finditer_ends pub_mod_pattern content)) as [e|] eqn:E.
  - unfold with_memory_module. rewrite E. unfold inserted_text.
    change (take e content ++ (newline :: doc_line ++ newline :: decl_line) ++ drop e content)
      with (take e content ++ (newline :: doc_line ++ newline :: decl_line)
            ++ drop e content).
    replace (take e content ++ (newline :: doc_line ++ newline :: decl_line) ++ drop e content)
      with ((take e content ++ newline :: doc_line) ++ newline :: (decl_line ++ drop e content)).
    + apply re_search_multiline_after_newline, decl_line_matches.
    + rewrite <- !app_assoc. simpl. by rewrite <- ?app_assoc.
  - rewrite with_memory_module_lines by done.
    set (lines := split newline content). set (i := insert_line_of lines).
    replace (take i lines ++ doc_line :: decl_line :: [] :: drop i lines)
      with ((take i lines ++ [doc_line]) ++ decl_line :: [] :: drop i lines)
      by (by rewrite <- app_assoc).
    rewrite join_app_cons, join_cons.
    destruct (take i lines ++ [doc_line]) as [|l0 ls] eqn:El;
      [by destruct (take i lines)|].
    cbv match. rewrite <- app_assoc.
    change ([newline] ++ decl_line ++ [newline] ++ join [newline] ([] :: drop i lines))
      with (newline :: (decl_line ++ [newline] ++ join [newline] ([] :: drop i lines))).
    apply re_search_multiline_after_newline, decl_line_matches.
Qed.

(** The index the loop over the lines finds. *)
Lemma first_code_line_Some i0 lines i :
  first_code_line i0 lines = Some i ->
  exists k line, i = i0 + k /\ lines !! k = Some line /\ is_code_line line = true
                 /\ Forall (fun l => is_code_line l = false) (take k lines).
Proof.
  revert i0. induction lines as [|l lines IH]; intros i0; simpl; [done|].
  destruct (is_code_line l) eqn:E.
  - intros [= <-]. exists 0, l. split_and!; (done || lia || constructor).
  - intros H. destruct (IH _ H) as (k & line & -> & Hk & Hc & Hall).
    exists (S k), line. split_and!; try done; [lia|]. simpl. by constructor.
Qed.

Lemma first_code_line_None i0 lines :
  first_code_line i0 lines = None -> Forall (fun l => is_code_line l = false) lines.
Proof.
  revert i0. induction lines as [|l lines IH]; intros i0; simpl; [constructor|].
  destruct (is_code_line l) eqn:E; [done|]. intros H. constructor; eauto.
Qed.

Lemma add_memory_module_to_lib_missing lib w :
  fs w !! lib = None ->
  add_memory_module_to_lib lib w = (Return false, printed (WarnNotFound lib) w).
Proof.
  intros H. unfold add_memory_module_to_lib. run. rewrite H.
  rewrite bool_decide_eq_false_2 by (by intros [x Hx]). done.
Qed.

Lemma add_memory_module_to_lib_declared lib w f :
  fs w !! lib = Some (File f) -> read_error f = None ->
  memory_module_declared (content f) = true ->
  add_memory_module_to_lib lib w = (Return false, printed AlreadyDeclared w).
Proof.
  intros H Hr Hd. unfold add_memory_module_to_lib. run. rewrite H.
  rewrite bool_decide_eq_true_2 by eauto.
  repeat (simpl; rewrite ?H, ?Hr, ?Hd). done.
Qed.

Lemma add_memory_module_to_lib_inserts lib w f :
  fs w !! lib = Some (File f) -> read_error f = None -> write_error f = None ->
  memory_module_declared (content f) = false ->
  add_memory_module_to_lib lib w =
  (Return true,
   printed AddedDeclaration
     (stored lib (with_content (with_memory_module (content f)) f) w)).
Proof.
  intros H Hr Hw Hd. unfold add_memory_module_to_lib. run. rewrite H.
  rewrite bool_decide_eq_true_2 by eauto.
  repeat (simpl; rewrite ?H, ?Hr, ?Hd, ?Hw). done.
Qed.

(** ** The run over the tree *)

Lemma filter_Forall {A} (f : A -> bool) l : Forall (fun x => f x = true) (List.filter f l).
Proof.
  induction l as [|x l IH]; simpl; [constructor|].
  destruct (f x) eqn:E; [by constructor|done].
Qed.

Lemma rglob_rs_under src w :
  exists files, rglob_rs src w = (Return files, w)
                /\ Forall (fun p => src `prefix_of` p) files.
Proof.
  unfold rglob_rs. eexists. split; [done|].
  rewrite merge_sort_Permutation.
  eapply Forall_impl; [apply filter_Forall|]. simpl.
  intros p Hp. apply andb_true_iff in Hp as [Hp _].
  apply andb_true_iff in Hp as [Hp _]. by apply bool_decide_eq_true in Hp.
Qed.

(** The loop visits every file it is given. *)
Lemma process_all_total src files n m w :
  Forall (fun p => src `prefix_of` p) files ->
  exists changed w',
    process_all src files n m w = (Return (n + length files, changed), w').
Proof.
  intros H. revert n m w. induction H as [|p files Hp _ IH]; intros n m w; simpl.
  - exists m, w. by rewrite Nat.add_0_r.
  - unfold relative_to. rewrite bool_decide_eq_true_2 by done.
    unfold mbind at 1, M_bind, bind at 1. unfold mret, M_ret, ret.
    unfold mbind at 1, bind at 1, print.
    unfold mbind at 1, bind at 1.
    destruct (process_rust_file_total p src
                (printed (Processing (drop (length src) p)) w)) as (b & w1 & ->).
    destruct (IH (n + 1) (if b then m + 1 else m) w1) as (changed & w' & ->).
    exists changed, w'. do 2 f_equal. f_equal. lia.
Qed.

Lemma main_without_src script_dir w :
  let candle_src := script_dir ++ [L "packages"; L "candle"; L "src"] in
  fs w !! candle_src = None ->
  main script_dir w = (Return tt, printed (ErrorSrcNotFound candle_src) w).
Proof.
  intros src H. unfold main. fold src. run. rewrite H.
  rewrite bool_decide_eq_false_2 by (by intros [x Hx]). done.
Qed.

(** With the source directory in place and no anchor file, [main] warns and
    goes on to the files. *)
Lemma main_without_anchor script_dir w :
  let candle_src := script_dir ++ [L "packages"; L "candle"; L "src"] in
  let lib_rs := candle_src ++ [L "lib.rs"] in
  is_Some (fs w !! candle_src) -> fs w !! lib_rs = None ->
  exists files changed w',
    rglob_rs candle_src w = (Return files, w)
    /\ process_all candle_src files 0 0
         (logged (main_banner candle_src
                  ++ [WarnNotFound lib_rs; Say "Processing Rust files..."]) w)
       = (Return (length files, changed), w')
    /\ main script_dir w = (Return tt, logged (main_summary (length files, changed)) w').
Proof.
  intros src lib Hsrc Hlib.
  destruct (rglob_rs_under src w) as (files & Hfiles & Hunder).
  set (w1 := logged (main_banner src ++ [WarnNotFound lib; Say "Processing Rust files..."]) w).
  destruct (process_all_total src files 0 0 w1 Hunder) as (changed & w' & Hall).
  exists files, changed, w'. split_and!; [done|done|].
  assert (Hg : forall out, rglob_rs src (logged out w) = (Return files, logged out w)).
  { intros out. unfold rglob_rs in *. simpl. by injection Hfiles as ->. }
  unfold main. fold src. fold lib.
  unfold mbind, M_bind, bind, path_exists, print.
  rewrite bool_decide_eq_true_2 by done. cbn [negb]. cbv beta iota.
  rewrite !printed_as_logged, !logged_logged. cbn [app].
  rewrite add_memory_module_to_lib_missing by done.
  rewrite !printed_as_logged, !logged_logged. cbn [app].
  rewrite Hg. unfold w1, main_banner in Hall. cbn [app] in Hall.
  rewrite Hall. cbv beta iota.
  rewrite !printed_as_logged, !logged_logged. done.
Qed.

(** ** The claims on files *)

Lemma is_memory_file_under src rest :
  is_memory_file (src ++ rest) src = startswith (L "memory/") (path_str rest).
Proof.
  unfold is_memory_file, relative_to.
  rewrite bool_decide_eq_true_2 by apply prefix_app_r, reflexivity.
  by rewrite drop_app_length.
Qed.

Lemma is_memory_file_outside p src :
  is_memory_file p src && negb (bool_decide (src `prefix_of` p)) = false.
Proof.
  unfold is_memory_file, relative_to.
  destruct (bool_decide (src `prefix_of` p)); simpl; [apply andb_false_r|done].
Qed.

(** C8: [process_rust_file] applies the external remap to every file it
    can read and write, and the two internal remaps only on top of it when
    [is_memory_file] holds; a path outside the source root is never a
    memory file, a path with at least two components below [memory] is. *)
Theorem internal_remaps_only_in_memory_files (p src : Path) (w : world) (f : file)
    (Hp : fs w !! p = Some (File f))
    (Hr : read_error f = None) (Hw : write_error f = None) :
  let c := content f in
  (exists w',
     process_rust_file p src w
     = (Return (negb (bool_decide (rewritten_content p src c = c))), w')
     /\ text_of w' p = Some (rewritten_content p src c))
  /\ rewritten_content p src c
     = (if is_memory_file p src
        then transform_internal_memory_imports (transform_external_imports c)
        else transform_external_imports c)
  /\ is_memory_file p src && negb (bool_decide (src `prefix_of` p)) = false
  /\ (forall name rest, is_memory_file (src ++ L "memory" :: name :: rest) src = true)
  /\ (forall rest, is_memory_file (src ++ rest) src
                   = startswith (L "memory/") (path_str rest)).
Proof.
  intros c. split_and!.
  - destruct (process_rust_file_readable p src w f Hp Hr) as [out ->].
    fold c. rewrite Hw.
    destruct (bool_decide (rewritten_content p src c = c)) eqn:E.
    + eexists. split; [done|]. apply bool_decide_eq_true in E.
      unfold text_of. simpl. by rewrite Hp, E.
    + eexists. split; [done|]. unfold text_of. simpl.
      by rewrite lookup_insert_eq.
  - done.
  - apply is_memory_file_outside.
  - intros name rest. by rewrite is_memory_file_under.
  - apply is_memory_file_under.
Qed.

Lemma internal_remaps_only_in_memory_files_witness :
  fs tree_without_anchor !! example_unmanaged
  = Some (File (plain_file (L "use paraphym_memory::Widget;")))
  /\ is_memory_file example_unmanaged example_src
     && negb (bool_decide (example_src `prefix_of` example_unmanaged)) = false.
Proof.
  assert (Hp : fs tree_without_anchor !! example_unmanaged
               = Some (File (plain_file (L "use paraphym_memory::Widget;"))))
    by (vm_compute; reflexivity).
  split; [exact Hp|].
  exact (proj1 (proj2 (proj2
    (internal_remaps_only_in_memory_files example_unmanaged example_src
       tree_without_anchor (plain_file (L "use paraphym_memory::Widget;"))
       Hp eq_refl eq_refl)))).
Defined.

Lemma fix3_run w f :
  fs w !! qwen_file = Some (File f) ->
  read_error f = None -> write_error f = None ->
  fix3 w =
  (Return tt,
   printed (Say "Fixed ZeroOneOrMany::None -> ::Zero")
     (stored qwen_file
        (with_content
           (re_sub zero_one_or_many_none
              (fun _ => L "progresshub::types::ZeroOneOrMany::Zero") (content f)) f)
        (printed (Say "[3/10] Fixing ZeroOneOrMany::None to ::Zero in qwen3_coder.rs...") w))).
Proof.
  intros Hp Hr Hw. unfold fix3. fold qwen_file.
  unfold mbind, M_bind, bind, path_exists, print, read_text, write_text.
  cbn [fs printed]. rewrite Hp.
  rewrite bool_decide_eq_true_2 by eauto. cbv beta iota.
  cbn [fs printed]. rewrite Hp, Hr. cbv beta iota.
  cbn [fs printed]. rewrite Hp, Hw. done.
Qed.

(** C6, as the code has it: [process_rust_file] writes a file back exactly
    when the text it computed differs from the text it read, and leaves
    the tree and the write log as they were otherwise; fix 3 of
    [fix_compilation_errors.py] writes its file back whenever the file is
    there, changed or not. *)
Theorem process_rust_file_writes_iff_changed (p src : Path) (w : world) (f : file)
    (Hp : fs w !! p = Some (File f))
    (Hr : read_error f = None) (Hw : write_error f = None) :
  let c := content f in
  let c' := rewritten_content p src c in
  let r := process_rust_file p src w in
  r.1 = Return (negb (bool_decide (c' = c)))
  /\ (c' = c -> writes r.2 = writes w /\ fs r.2 = fs w)
  /\ (c' <> c -> writes r.2 = writes w ++ [(p, c')]
                 /\ fs r.2 = <[p := File (with_content c' f)]> (fs w))
  /\ (forall w2 f2,
        fs w2 !! qwen_file = Some (File f2) ->
        read_error f2 = None -> write_error f2 = None ->
        writes (fix3 w2).2
        = writes w2
          ++ [(qwen_file,
               re_sub zero_one_or_many_none
                 (fun _ => L "progresshub::types::ZeroOneOrMany::Zero") (content f2))]).
Proof.
  intros c c' r. unfold r.
  destruct (process_rust_file_readable p src w f Hp Hr) as [out ->].
  fold c c'. rewrite Hw.
  destruct (bool_decide (c' = c)) eqn:E.
  - apply bool_decide_eq_true in E. split_and!; try done.
    intros w2 f2 H2 Hr2 Hw2. by rewrite (fix3_run w2 f2).
  - apply bool_decide_eq_false in E. split_and!; try done.
    intros w2 f2 H2 Hr2 Hw2. by rewrite (fix3_run w2 f2).
Qed.

Lemma process_rust_file_writes_iff_changed_witness :
  fs tree_without_anchor !! example_managed
  = Some (File (plain_file (L "use crate::cognitive::types;")))
  /\ (process_rust_file example_managed example_src tree_without_anchor).1
     = Return (negb (bool_decide
         (rewritten_content example_managed example_src
            (content (plain_file (L "use crate::cognitive::types;")))
          = content (plain_file (L "use crate::cognitive::types;"))))).
Proof.
  assert (Hp : fs tree_without_anchor !! example_managed
               = Some (File (plain_file (L "use crate::cognitive::types;"))))
    by (vm_compute; reflexivity).
  split; [exact Hp|].
  exact (proj1
    (process_rust_file_writes_iff_changed example_managed example_src
       tree_without_anchor (plain_file (L "use crate::cognitive::types;"))
       Hp eq_refl eq_refl)).
Defined.

(** C6 as stated fails on fix 3: the provider file holds nothing to fix,
    its text stays the same, and it is written back all the same. *)
Lemma fix3_rewrites_an_unchanged_file :
  text_of (fix3 tree_with_fixed_provider).2 qwen_file
  = text_of tree_with_fixed_provider qwen_file
  /\ writes tree_with_fixed_provider = []
  /\ writes (fix3 tree_with_fixed_provider).2 = [(qwen_file, L "fn main() {}")].
Proof. vm_compute. split_and!; reflexivity. Qed.

(** C10: without the anchor file [add_memory_module_to_lib] warns, writes
    nothing and returns False, the value it also returns when the module
    is declared already; [main] drops the value and goes on to process
    every candidate file. *)
Theorem missing_anchor_is_not_fatal (script_dir : Path) (w : world)
    (Hsrc : is_Some (fs w !! (script_dir ++ [L "packages"; L "candle"; L "src"])))
    (Hlib : fs w !! ((script_dir ++ [L "packages"; L "candle"; L "src"]) ++ [L "lib.rs"])
            = None) :
  let candle_src := script_dir ++ [L "packages"; L "candle"; L "src"] in
  let lib_rs := candle_src ++ [L "lib.rs"] in
  add_memory_module_to_lib lib_rs w = (Return false, printed (WarnNotFound lib_rs) w)
  /\ (forall w2 f2,
        fs w2 !! lib_rs = Some (File f2) -> read_error f2 = None ->
        memory_module_declared (content f2) = true ->
        (add_memory_module_to_lib lib_rs w2).1 = (add_memory_module_to_lib lib_rs w).1
        /\ fs (add_memory_module_to_lib lib_rs w2).2 = fs w2)
  /\ exists files changed w',
       rglob_rs candle_src w = (Return files, w)
       /\ process_all candle_src files 0 0
            (logged (main_banner candle_src
                     ++ [WarnNotFound lib_rs; Say "Processing Rust files..."]) w)
          = (Return (length files, changed), w')
       /\ main script_dir w
          = (Return tt, logged (main_summary (length files, changed)) w').
Proof.
  intros src lib. split_and!.
  - by apply add_memory_module_to_lib_missing.
  - intros w2 f2 H2 Hr2 Hd2.
    rewrite (add_memory_module_to_lib_declared lib w2 f2) by done.
    by rewrite add_memory_module_to_lib_missing.
  - by apply main_without_anchor.
Qed.

Lemma missing_anchor_is_not_fatal_witness :
  is_Some (fs tree_without_anchor !! (example_root ++ [L "packages"; L "candle"; L "src"]))
  /\ fs tree_without_anchor
     !! ((example_root ++ [L "packages"; L "candle"; L "src"]) ++ [L "lib.rs"]) = None
  /\ add_memory_module_to_lib
       ((example_root ++ [L "packages"; L "candle"; L "src"]) ++ [L "lib.rs"])
       tree_without_anchor
     = (Return false,
        printed
          (WarnNotFound ((example_root ++ [L "packages"; L "candle"; L "src"]) ++ [L "lib.rs"]))
          tree_without_anchor).
Proof.
  assert (Hsrc : is_Some (fs tree_without_anchor
                          !! (example_root ++ [L "packages"; L "candle"; L "src"])))
    by (vm_compute; eauto).
  assert (Hlib : fs tree_without_anchor
                 !! ((example_root ++ [L "packages"; L "candle"; L "src"]) ++ [L "lib.rs"])
                 = None) by (vm_compute; reflexivity).
  split; [exact Hsrc|]. split; [exact Hlib|].
  exact (proj1 (missing_anchor_is_not_fatal example_root tree_without_anchor Hsrc Hlib)).
Defined.

(** C2 fails on the code: the simple remap has no exemption for the
    reserved names, so [use crate::Error;] is nested, whatever follows it,
    while the bracketed remap next to it leaves [Error] and [Result]
    alone. *)
Lemma simple_remap_nests_reserved_names :
  (forall rest,
     re_sub pattern1 replace1 (L "use crate::Error;" ++ rest)
     = L "use crate::memory::Error;" ++ re_sub pattern1 replace1 rest)
  /\ transform_internal_memory_imports (L "use crate::Error;")
     = L "use crate::memory::Error;"
  /\ transform_internal_memory_imports (L "use crate::Result;")
     = L "use crate::memory::Result;"
  /\ transform_internal_memory_imports (L "use crate::{Error, Result};")
     = L "use crate::{Error, Result};".
Proof.
  split; [|split_and!; vm_compute; reflexivity].
  intros rest.
  rewrite (re_sub_match pattern1 replace1 pattern1_shrinks _ (L "Error") (";" :: rest))
    by reflexivity.
  rewrite re_sub_no_match by (apply pattern1_shrinks || reflexivity).
  reflexivity.
Qed.

(** ** What the run leaves alone *)

Lemma process_rust_file_frame p src w q :
  q <> p -> fs (process_rust_file p src w).2 !! q = fs w !! q.
Proof.
  intros Hq.
  destruct (read_text_cases p w) as [(f & Hp & Hr)|[e He]].
  - destruct (process_rust_file_readable p src w f Hp Hr) as [out ->].
    destruct (bool_decide _); [done|].
    destruct (write_error f); [done|].
    cbn [snd fs stored logged]. by rewrite lookup_insert_ne.
  - by rewrite (process_rust_file_unreadable _ _ _ _ He).
Qed.

Lemma process_all_frame src files n m w q :
  q ∉ files -> fs (process_all src files n m w).2 !! q = fs w !! q.
Proof.
  revert n m w. induction files as [|p files IH]; intros n m w Hq; [done|].
  apply not_elem_of_cons in Hq as [Hqp Hq]. cbn [process_all].
  destruct (relative_to p src) as [r|]; [|done].
  unfold mbind at 1, M_bind, bind at 1. unfold mret, M_ret, ret.
  unfold mbind at 1, bind at 1, print.
  unfold mbind at 1, bind at 1.
  pose proof (process_rust_file_frame p src (printed (Processing r) w) q Hqp) as Hf.
  destruct (process_rust_file p src (printed (Processing r) w)) as [[b|e] w1].
  - rewrite IH by done. exact Hf.
  - exact Hf.
Qed.

Lemma add_memory_module_to_lib_frame lib w q :
  q <> lib -> fs (add_memory_module_to_lib lib w).2 !! q = fs w !! q.
Proof.
  intros Hq. unfold add_memory_module_to_lib.
  unfold mbind, M_bind, bind, mret, M_ret, ret, path_exists, print, read_text, write_text.
  destruct (bool_decide (is_Some (fs w !! lib))); cbn [negb]; [|done].
  destruct (fs w !! lib) as [[|f]|] eqn:E; [done| |done].
  destruct (read_error f); [done|].
  destruct (memory_module_declared (content f)); [done|].
  rewrite E. destruct (write_error f); [done|].
  cbn [snd fs stored printed]. by rewrite lookup_insert_ne.
Qed.

Lemma rglob_rs_elem src w files p :
  rglob_rs src w = (Return files, w) -> p ∈ files ->
  src `prefix_of` p /\ p <> src /\ is_rs_name (default [] (last p)) = true.
Proof.
  unfold rglob_rs. intros [= <-] Hp. rewrite merge_sort_Permutation in Hp.
  pose proof (filter_Forall
    (fun p => bool_decide (src `prefix_of` p) && negb (bool_decide (p = src))
              && is_rs_name (default [] (last p)))
    (map fst (map_to_list (fs w)))) as H.
  rewrite Forall_forall in H. specialize (H _ Hp). cbv beta in H.
  apply andb_true_iff in H as [H H3]. apply andb_true_iff in H as [H1 H2].
  apply bool_decide_eq_true in H1. apply negb_true_iff, bool_decide_eq_false in H2.
  done.
Qed.

(** The shape of [main] once the source directory is there. *)
Lemma main_with_src script_dir w :
  let candle_src := script_dir ++ [L "packages"; L "candle"; L "src"] in
  let lib_rs := candle_src ++ [L "lib.rs"] in
  is_Some (fs w !! candle_src) ->
  main script_dir w =
  match add_memory_module_to_lib lib_rs (logged (main_banner candle_src) w) with
  | (Raise e, w1) => (Raise e, w1)
  | (Return _, w1) =>
      let w2 := printed (Say "Processing Rust files...") w1 in
      match rglob_rs candle_src w2 with
      | (Raise e, w3) => (Raise e, w3)
      | (Return files, w3) =>
          match process_all candle_src files 0 0 w3 with
          | (Raise e, w4) => (Raise e, w4)
          | (Return counts, w4) => (Return tt, logged (main_summary counts) w4)
          end
      end
  end.
Proof.
  intros src lib Hsrc. unfold main. fold src. fold lib.
  unfold mbind, M_bind, bind, path_exists, print.
  rewrite bool_decide_eq_true_2 by done. cbn [negb]. cbv beta iota.
  rewrite !printed_as_logged, !logged_logged. cbn [app]. unfold main_banner.
  destruct (add_memory_module_to_lib lib _) as [[b|e] w1]; [|done].
  destruct (rglob_rs src _) as [[files|e] w3]; [|done].
  destruct (process_all src files 0 0 w3) as [[counts|e] w4]; [|done].
  unfold main_summary. rewrite !printed_as_logged, !logged_logged. done.
Qed.

(** X1: Whatever happens, [main] changes no path outside the source directory
    and none whose name does not end in [.rs]: not by an insertion into
    the anchor file, not by a rewrite, not when it stops with an
    exception. *)
Theorem main_changes_only_rust_files_of_src (script_dir : Path) (w : world) (q : Path)
    (Hq : ~ (script_dir ++ [L "packages"; L "candle"; L "src"]) `prefix_of` q
          \/ is_rs_name (default [] (last q)) = false) :
  fs (main script_dir w).2 !! q = fs w !! q.
Proof.
  set (src := script_dir ++ [L "packages"; L "candle"; L "src"]) in *.
  set (lib := src ++ [L "lib.rs"]).
  destruct (fs w !! src) as [n|] eqn:Esrc.
  - rewrite main_with_src by (fold src; rewrite Esrc; eauto). fold src lib.
    assert (Hlib : q <> lib).
    { intros ->. destruct Hq as [Hq|Hq].
      - apply Hq. by apply prefix_app_r.
      - unfold lib in Hq. by rewrite last_snoc in Hq. }
    pose proof (add_memory_module_to_lib_frame lib (logged (main_banner src) w) q Hlib) as H1.
    destruct (add_memory_module_to_lib lib _) as [[b|e] w1]; [|exact H1].
    cbn [snd] in H1. cbv zeta.
    destruct (rglob_rs_under src (printed (Say "Processing Rust files...") w1))
      as (files & Hfiles & _).
    rewrite Hfiles.
    assert (Hnot : q ∉ files).
    { intros Hin. destruct (rglob_rs_elem _ _ _ _ Hfiles Hin) as (Hp & _ & Hn).
      destruct Hq as [Hq|Hq]; [done|congruence]. }
    pose proof (process_all_frame src files 0 0
                  (printed (Say "Processing Rust files...") w1) q Hnot) as H2.
    destruct (process_all src files 0 0 _) as [[counts|e] w4];
      cbn [snd fs logged printed] in *; congruence.
  - by rewrite main_without_src.
Qed.

Lemma main_changes_only_rust_files_of_src_witness :
  (~ (example_root ++ [L "packages"; L "candle"; L "src"]) `prefix_of` qwen_file
   \/ is_rs_name (default [] (last qwen_file)) = false)
  /\ fs (main example_root tree_without_anchor).2 !! qwen_file
     = fs tree_without_anchor !! qwen_file.
Proof.
  assert (Hq : ~ (example_root ++ [L "packages"; L "candle"; L "src"]) `prefix_of` qwen_file
               \/ is_rs_name (default [] (last qwen_file)) = false).
  { left. apply (bool_decide_eq_false_1 _). vm_compute. reflexivity. }
  split; [exact Hq|].
  exact (main_changes_only_rust_files_of_src example_root tree_without_anchor qwen_file Hq).
Defined.

(** X2: An anchor file that is there but cannot be read, or that needs the
    declaration and cannot be written, is not covered by any handler: the
    exception leaves [add_memory_module_to_lib] and [main], and no file
    has been written. *)
Theorem anchor_io_error_ends_the_run (script_dir : Path) (w : world)
    (f : file) (e : exn)
    (Hsrc : is_Some (fs w !! (script_dir ++ [L "packages"; L "candle"; L "src"])))
    (Hlib : fs w !! ((script_dir ++ [L "packages"; L "candle"; L "src"]) ++ [L "lib.rs"])
            = Some (File f))
    (Herr : read_error f = Some e
            \/ (read_error f = None /\ memory_module_declared (content f) = false
                /\ write_error f = Some e)) :
  let candle_src := script_dir ++ [L "packages"; L "candle"; L "src"] in
  let lib_rs := candle_src ++ [L "lib.rs"] in
  add_memory_module_to_lib lib_rs w = (Raise e, w)
  /\ main script_dir w = (Raise e, logged (main_banner candle_src) w)
  /\ fs (main script_dir w).2 = fs w
  /\ writes (main script_dir w).2 = writes w.
Proof.
  intros src lib.
  assert (Hadd : forall w0, fs w0 = fs w ->
                 add_memory_module_to_lib lib w0 = (Raise e, w0)).
  { intros w0 Hw0. unfold add_memory_module_to_lib.
    unfold mbind, M_bind, bind, mret, M_ret, ret, path_exists, print, read_text,
      write_text.
    rewrite Hw0. fold src lib in Hlib. rewrite Hlib.
    rewrite bool_decide_eq_true_2 by eauto. cbn [negb]. cbv beta iota.
    destruct Herr as [Hr|(Hr & Hd & Hw)].
    - repeat (cbv beta iota; rewrite ?Hw0, ?Hlib, ?Hr). done.
    - repeat (cbv beta iota; rewrite ?Hw0, ?Hlib, ?Hr, ?Hd, ?Hw). done. }
  assert (Hmain : main script_dir w = (Raise e, logged (main_banner src) w)).
  { rewrite main_with_src by done. fold src lib. by rewrite Hadd. }
  split_and!; [by apply Hadd|done|by rewrite Hmain|by rewrite Hmain].
Qed.

Lemma anchor_io_error_ends_the_run_witness :
  let w := world_of
    (<[example_src := Dir]>
     (<[example_lib := File {| content := L "pub mod agent;";
                               read_error := Some PermissionError;
                               write_error := None |}]>
      (<[example_managed := File (plain_file (L "use crate::a;"))]> ∅))) in
  is_Some (fs w !! (example_root ++ [L "packages"; L "candle"; L "src"]))
  /\ main example_root w
     = (Raise PermissionError,
        logged (main_banner (example_root ++ [L "packages"; L "candle"; L "src"])) w).
Proof.
  intros w.
  assert (Hsrc : is_Some (fs w !! (example_root ++ [L "packages"; L "candle"; L "src"])))
    by (vm_compute; eauto).
  assert (Hlib : fs w !! ((example_root ++ [L "packages"; L "candle"; L "src"])
                          ++ [L "lib.rs"])
                 = Some (File {| content := L "pub mod agent;";
                                 read_error := Some PermissionError;
                                 write_error := None |}))
    by (vm_compute; reflexivity).
  split; [exact Hsrc|].
  exact (proj1 (proj2
    (anchor_io_error_ends_the_run example_root w _ PermissionError Hsrc Hlib
       (or_introl eq_refl)))).
Defined.

(** ** Scans whose matches all start with the same character *)

Section re_sub_trigger.
Context {A : Type} (pat : pattern A) (repl : A -> pystr) (u : ascii).
Hypothesis pat_shrinks : shrinks pat.
Hypothesis pat_trigger : forall s g rest, pat s = Some (g, rest) -> exists t, s = u :: t.
Hypothesis repl_trigger : forall g, exists t, repl g = u :: t.

(** A prefix without the character is copied. *)
Lemma re_sub_copy w t :
  Forall (fun c => c <> u) w -> re_sub pat repl (w ++ t) = w ++ re_sub pat repl t.
Proof.
  induction 1 as [|c w Hc _ IH]; [done|].
  cbn [app]. rewrite re_sub_cons by done.
  destruct (pat (c :: w ++ t)) as [[g rest]|] eqn:E.
  - destruct (pat_trigger _ _ _ E) as [t' [= -> _]]. done.
  - by rewrite IH.
Qed.

(** And a prefix without the character in the result was there before. *)
Lemma re_sub_reflect w t o :
  Forall (fun c => c <> u) w -> re_sub pat repl t = w ++ o ->
  exists t', t = w ++ t' /\ o = re_sub pat repl t'.
Proof.
  intros Hw. revert t o. induction Hw as [|c w Hc _ IH]; intros t o H.
  - by exists t.
  - destruct t as [|d t]; [done|]. rewrite re_sub_cons in H by done.
    destruct (pat (d :: t)) as [[g rest]|] eqn:E.
    + destruct (repl_trigger g) as [r Hr]. rewrite Hr in H.
      injection H as -> _. done.
    + injection H as -> H. destruct (IH _ _ H) as (t' & -> & ->). by exists t'.
Qed.
End re_sub_trigger.

Lemma app_eq_app_cases {A} (p t r x : list A) :
  p ++ t = r ++ x ->
  (length p < length r /\ t = drop (length p) r ++ x)
  \/ (exists p', x = p' ++ t).
Proof.
  intros H. destruct (decide (length p < length r)) as [Hl|Hl].
  - left. split; [done|].
    apply (f_equal (drop (length p))) in H.
    rewrite drop_app_length in H. rewrite H.
    rewrite drop_app_le by lia. done.
  - right. exists (drop (length r) p).
    apply (f_equal (drop (length r))) in H.
    rewrite drop_app_length in H. rewrite <- H.
    rewrite drop_app_le by lia. done.
Qed.

(** ** The external remap *)

Lemma external_pattern_trigger s g rest :
  external_pattern s = Some (g, rest) -> exists t, s = "u" :: t.
Proof.
  intros H. destruct (external_pattern_inv _ _ _ H) as (c & ws & -> & _). by eexists.
Qed.

Lemma space_not_u c : is_space c = true -> c <> "u".
Proof. by intros H ->. Qed.

Lemma external_head_no_u c ws :
  is_space c = true -> Forall (fun c => is_space c = true) ws ->
  Forall (fun c => c <> "u") (L "se" ++ c :: ws ++ L "paraphym_memory::").
Proof.
  intros Hc Hws. repeat (constructor; [done|]).
  constructor; [by apply space_not_u|].
  apply Forall_app. split.
  - eapply Forall_impl; [exact Hws|]. apply space_not_u.
  - repeat (constructor; [done|]). constructor.
Qed.

(** The replacement holds no match, wherever one looks in it. *)
Lemma external_replacement_no_match k x :
  k < length external_replacement ->
  external_pattern (drop k external_replacement ++ x) = None.
Proof.
  intros Hk. do 29 (destruct k as [|k]; [reflexivity|]).
  simpl in Hk. lia.
Qed.

(** A match seen in front of the result of the scan of [s] is a match in
    front of [s]. *)
Lemma external_pattern_reflect c s :
  external_pattern (c :: transform_external_imports s) <> None ->
  external_pattern (c :: s) <> None.
Proof.
  destruct (external_pattern (c :: transform_external_imports s))
    as [[[] rest]|] eqn:E'; [|done].
  intros _.
  destruct (external_pattern_inv _ _ _ E') as (sp & ws & Hs & Hsp & Hws).
  injection Hs as -> Hs.
  assert (Hs' : transform_external_imports s
                = (L "se" ++ sp :: ws ++ L "paraphym_memory::") ++ rest).
  { rewrite Hs. cbn [app L list_ascii_of_string]. do 3 f_equal.
    by rewrite <- app_assoc. }
  destruct (re_sub_reflect external_pattern (fun _ => external_replacement) "u"
              external_pattern_shrinks external_pattern_trigger
              (fun _ => ex_intro _ _ eq_refl) _ _ _
              (external_head_no_u sp ws Hsp Hws) Hs') as (t' & -> & _).
  pose proof (external_pattern_app sp ws t' Hsp Hws) as E2.
  assert (Heq : "u" :: (L "se" ++ sp :: ws ++ L "paraphym_memory::") ++ t'
                = L "use" ++ sp :: ws ++ L "paraphym_memory::" ++ t').
  { cbn [app L list_ascii_of_string]. do 4 f_equal. by rewrite <- app_assoc. }
  rewrite Heq, E2. done.
Qed.

(** No match is left in what the external remap returns. *)
Lemma transform_external_imports_no_match s p t :
  transform_external_imports s = p ++ t -> external_pattern t = None.
Proof.
  revert p t. induction s as [s IH] using (induction_ltof1 _ (@length ascii)).
  unfold ltof in IH. intros p t H.
  destruct s as [|c s].
  - destruct p, t; done.
  - rewrite transform_external_imports_cons in H.
    destruct (external_pattern (c :: s)) as [[[] rest]|] eqn:E.
    + symmetry in H.
      destruct (app_eq_app_cases _ _ _ _ H) as [[Hl Ht]|[p' Hp']].
      * rewrite Ht. by apply external_replacement_no_match.
      * apply (IH rest) with p'; [|done].
        by apply external_pattern_shrinks in E.
    + destruct p as [|d p].
      * cbn [app] in H. subst t.
        destruct (external_pattern (c :: transform_external_imports s)) eqn:E';
          [|done].
        exfalso. apply (external_pattern_reflect c s); [by rewrite E'|done].
      * injection H as -> H. by apply (IH s) with p; [simpl; lia|].
Qed.

(** X3: The external remap changes nothing in its own result: applied to any
    text twice, it gives what it gives applied once. *)
Theorem transform_external_imports_idempotent (content : pystr) :
  transform_external_imports (transform_external_imports content)
  = transform_external_imports content.
Proof.
  unfold transform_external_imports at 1.
  apply re_sub_id; [apply external_pattern_shrinks|].
  intros p t H. by eapply transform_external_imports_no_match.
Qed.

(** X4: A second run of [process_rust_file] over a file outside the memory
    subtree finds nothing to do: it returns False and writes nothing. *)
Theorem process_rust_file_twice_unmanaged (p src : Path) (w : world) (f : file)
    (Hp : fs w !! p = Some (File f))
    (Hr : read_error f = None) (Hw : write_error f = None)
    (Hm : is_memory_file p src = false) :
  let r1 := process_rust_file p src w in
  let r2 := process_rust_file p src r1.2 in
  text_of r1.2 p = Some (transform_external_imports (content f))
  /\ r2.1 = Return false
  /\ fs r2.2 = fs r1.2
  /\ writes r2.2 = writes r1.2.
Proof.
  intros r1 r2.
  assert (Hc : rewritten_content p src (content f)
               = transform_external_imports (content f))
    by (unfold rewritten_content; by rewrite Hm).
  assert (H1 : exists f1 w1,
            r1.2 = w1 /\ fs w1 !! p = Some (File f1) /\ read_error f1 = None
            /\ content f1 = transform_external_imports (content f)).
  { unfold r1. destruct (process_rust_file_readable p src w f Hp Hr) as [out ->].
    rewrite Hw, Hc.
    destruct (bool_decide _) eqn:E.
    - apply bool_decide_eq_true in E. exists f. eexists. split; [done|].
      cbn [snd fs logged]. by rewrite E.
    - eexists (with_content _ f). eexists. split; [done|].
      cbn [snd fs stored logged]. by rewrite lookup_insert_eq. }
  destruct H1 as (f1 & w1 & Hw1 & Hp1 & Hr1 & Hc1).
  unfold r2. rewrite Hw1.
  destruct (process_rust_file_readable p src w1 f1 Hp1 Hr1) as [out E2].
  assert (Hid : rewritten_content p src (content f1) = content f1).
  { unfold rewritten_content. rewrite Hm, Hc1.
    unfold transform_external_imports at 1.
    apply re_sub_id; [apply external_pattern_shrinks|].
    intros p' t H. by eapply transform_external_imports_no_match. }
  rewrite Hid, bool_decide_eq_true_2 in E2 by done.
  rewrite E2. split_and!; try done.
  unfold text_of. by rewrite Hp1, Hc1.
Qed.

Lemma process_rust_file_twice_unmanaged_witness :
  fs tree_without_anchor !! example_unmanaged
  = Some (File (plain_file (L "use paraphym_memory::Widget;")))
  /\ is_memory_file example_unmanaged example_src = false
  /\ (process_rust_file example_unmanaged example_src
        (process_rust_file example_unmanaged example_src tree_without_anchor).2).1
     = Return false.
Proof.
  assert (Hp : fs tree_without_anchor !! example_unmanaged
               = Some (File (plain_file (L "use paraphym_memory::Widget;"))))
    by (vm_compute; reflexivity).
  assert (Hm : is_memory_file example_unmanaged example_src = false)
    by (vm_compute; reflexivity).
  split; [exact Hp|]. split; [exact Hm|].
  exact (proj1 (proj2
    (process_rust_file_twice_unmanaged example_unmanaged example_src
       tree_without_anchor (plain_file (L "use paraphym_memory::Widget;"))
       Hp eq_refl eq_refl Hm))).
Defined.

(** ** The path classifier *)

Lemma slash_free_prefix_eq (x y a b : pystr) :
  "/" ∉ x -> "/" ∉ y -> x ++ "/" :: a = y ++ "/" :: b -> x = y.
Proof.
  revert y. induction x as [|c x IH]; intros y Hx Hy H.
  - destruct y as [|d y]; [done|]. injection H as <- _.
    exfalso. apply Hy. by left.
  - destruct y as [|d y].
    + injection H as -> _. exfalso. apply Hx. by left.
    + injection H as -> H. f_equal. apply IH; [| |done].
      * intros Hin. apply Hx. by right.
      * intros Hin. apply Hy. by right.
Qed.

(** X5: With components that hold no slash, as the components of a path do,
    a file below the source root is a memory file exactly when its first
    component is the directory [memory] and something follows it. *)
Theorem is_memory_file_iff (src rest : Path)
    (Hslash : Forall (fun component => "/" ∉ component) rest) :
  is_memory_file (src ++ rest) src = true
  <-> exists name more, rest = L "memory" :: name :: more.
Proof.
  rewrite is_memory_file_under. split.
  - intros H. apply startswith_inv in H as [r Hr].
    destruct rest as [|x [|y more]].
    + done.
    + cbn [path_str join] in Hr. apply Forall_cons in Hslash as [Hx _].
      exfalso. apply Hx. rewrite Hr. cbn. rewrite !elem_of_cons. tauto.
    + apply Forall_cons in Hslash as [Hx _].
      cbn [path_str] in Hr. rewrite join_cons in Hr.
      assert (x = L "memory") as ->; [|by eauto].
      apply (slash_free_prefix_eq x (L "memory") (join (L "/") (y :: more)) r);
        [done| |done].
      cbn. rewrite !elem_of_cons, elem_of_nil. intros H.
      repeat (destruct H as [H|H]; [done|]). done.
  - intros (name & more & ->). done.
Qed.

Lemma is_memory_file_iff_witness :
  Forall (fun component => "/" ∉ component) [L "memory"; L "store.rs"]
  /\ (is_memory_file (example_src ++ [L "memory"; L "store.rs"]) example_src = true
      <-> exists name more, [L "memory"; L "store.rs"] = L "memory" :: name :: more).
Proof.
  assert (H : Forall (fun component => "/" ∉ component) [L "memory"; L "store.rs"]).
  { repeat constructor; apply (bool_decide_eq_false_1 _); vm_compute; reflexivity. }
  split; [exact H|].
  exact (is_memory_file_iff example_src [L "memory"; L "store.rs"] H).
Defined.

(** ** The text of the anchor file *)

Lemma forallb_Forall_true {A} (f : A -> bool) l :
  forallb f l = true -> Forall (fun x => f x = true) l.
Proof.
  induction l as [|x l IH]; cbn; [constructor|].
  intros H. apply andb_true_iff in H as [Hx Hl]. constructor; auto.
Qed.

(** X6: The loose pattern: a declaration line is recognised whatever white
    space indents it and separates its words, and whatever follows the
    semicolon, at the start of the text and behind any newline. *)
Theorem declaration_line_is_detected
    (before indent gap1 gap2 gap3 after : pystr) (c1 c2 : ascii)
    (Hline : before = [] \/ exists b, before = b ++ [newline])
    (Hspace : forallb is_space (indent ++ c1 :: gap1 ++ c2 :: gap2 ++ gap3) = true) :
  memory_module_declared
    (before ++ indent ++ L "pub" ++ c1 :: gap1 ++ L "mod" ++ c2 :: gap2
            ++ L "memory" ++ gap3 ++ L ";" ++ after) = true.
Proof.
  apply forallb_Forall_true in Hspace.
  apply Forall_app in Hspace as [Hi Hspace].
  apply Forall_cons in Hspace as [Hc1 Hspace].
  apply Forall_app in Hspace as [H1 Hspace].
  apply Forall_cons in Hspace as [Hc2 Hspace].
  apply Forall_app in Hspace as [H2 H3].
  assert (Hm : matches memory_decl_pattern
                 (indent ++ L "pub" ++ c1 :: gap1 ++ L "mod" ++ c2 :: gap2
                         ++ L "memory" ++ gap3 ++ L ";" ++ after) = true).
  { unfold matches, memory_decl_pattern, many.
    rewrite skip_while_stop by done. bind_step.
    rewrite lit_app. bind_step.
    rewrite (many1_app is_space c1 gap1) by done. bind_step.
    rewrite lit_app. bind_step.
    rewrite (many1_app is_space c2 gap2) by done. bind_step.
    rewrite lit_app. bind_step.
    rewrite skip_while_stop by done. bind_step.
    rewrite lit_app. done. }
  unfold memory_module_declared.
  destruct Hline as [->|[b ->]].
  - cbn [app]. revert Hm.
    generalize (indent ++ L "pub" ++ c1 :: gap1 ++ L "mod" ++ c2 :: gap2
                       ++ L "memory" ++ gap3 ++ L ";" ++ after).
    intros t Hm. destruct t; cbn [re_search_multiline]; by rewrite Hm.
  - rewrite <- app_assoc. cbn [app].
    by apply re_search_multiline_after_newline.
Qed.

Lemma declaration_line_is_detected_witness :
  (L "mod a;" ++ [newline] = [] \/ exists b, L "mod a;" ++ [newline] = b ++ [newline])
  /\ forallb is_space (L "  " ++ " " :: L " " ++ "009" :: [] ++ [newline]) = true
  /\ memory_module_declared
       ((L "mod a;" ++ [newline]) ++ L "  " ++ L "pub" ++ " " :: L " " ++ L "mod"
          ++ "009" :: [] ++ L "memory" ++ [newline] ++ L ";" ++ L " // x") = true.
Proof.
  assert (H1 : L "mod a;" ++ [newline] = []
               \/ exists b, L "mod a;" ++ [newline] = b ++ [newline])
    by (right; by eexists).
  split; [exact H1|]. split; [reflexivity|].
  exact (declaration_line_is_detected (L "mod a;" ++ [newline]) (L "  ") (L " ") []
           [newline] (L " // x") " " "009" H1 eq_refl).
Defined.

Lemma join_cons_head sep c h t : join sep ((c :: h) :: t) = c :: join sep (h :: t).
Proof. by destruct t. Qed.

(** [sep.join(s.split(sep))] is [s]. *)
Lemma join_split sep s : join [sep] (split sep s) = s.
Proof.
  induction s as [|c s IH]; [done|]. cbn [split].
  pose proof (split_nonempty sep s) as Hne.
  destruct (Ascii.eqb_spec c sep) as [->|].
  - destruct (split sep s) as [|h t]; [done|]. rewrite join_cons. cbn [app].
    by rewrite IH.
  - destruct (split sep s) as [|h t]; [done|]. rewrite join_cons_head. by rewrite IH.
Qed.

Lemma insert_line_of_lt lines : lines <> [] -> insert_line_of lines < length lines.
Proof.
  intros Hne. unfold insert_line_of.
  destruct (first_code_line 0 lines) as [i|] eqn:E; simpl.
  - destruct (first_code_line_Some _ _ _ E) as (k & line & -> & Hk & _).
    apply lookup_lt_Some in Hk. simpl. lia.
  - destruct lines as [|l lines]; [done|]. simpl. lia.
Qed.

(** X7: The inserter only inserts: the new text is the old text with the two
    new lines put in at one place, and nothing of the old text is lost or
    moved. *)
Theorem with_memory_module_only_inserts (content : pystr) :
  exists k inserted,
    with_memory_module content = take k content ++ inserted ++ drop k content
    /\ (inserted = inserted_text
        \/ inserted = doc_line ++ newline :: decl_line ++ [newline; newline]).
Proof.
  destruct (last (re_finditer_ends pub_mod_pattern content)) as [e|] eqn:E.
  - exists e, inserted_text. unfold with_memory_module. rewrite E. auto.
  - rewrite with_memory_module_lines by done. cbv zeta.
    set (lines := split newline content).
    set (i := insert_line_of lines).
    assert (Hi : i < length lines) by apply insert_line_of_lt, split_nonempty.
    assert (Hc : content = join [newline] (take i lines ++ drop i lines))
      by (by rewrite take_drop; unfold lines; rewrite join_split).
    destruct (drop i lines) as [|x l2] eqn:Ed.
    { apply (f_equal length) in Ed. rewrite length_drop in Ed. simpl in Ed. lia. }
    set (pre := match take i lines with
                | [] => []
                | _ => join [newline] (take i lines) ++ [newline]
                end).
    assert (Hc' : content = pre ++ join [newline] (x :: l2))
      by (by rewrite Hc, join_app_cons).
    exists (length pre), (doc_line ++ newline :: decl_line ++ [newline; newline]).
    split; [|by right].
    rewrite join_app_cons. fold pre.
    rewrite !join_cons.
    rewrite Hc' at 1 2. rewrite take_app_length, drop_app_length.
    rewrite <- !app_assoc. done.
Qed.

(** ** The simple remap *)

Lemma module_path_tail_words a r :
  Forall (fun c => is_word c = true) a ->
  module_path_tail (a ++ r)
  = (a ++ (module_path_tail r).1, (module_path_tail r).2).
Proof.
  induction 1 as [|c a Hc _ IH]; cbn [app].
  - by destruct (module_path_tail r).
  - cbn [module_path_tail]. rewrite Hc, IH. done.
Qed.

Lemma module_path_tail_stop rest :
  match rest with d :: _ => is_word d = false /\ d <> ":" | [] => True end ->
  module_path_tail rest = ([], rest).
Proof.
  destruct rest as [|d rest]; [done|]. intros [Hw Hd].
  cbn [module_path_tail]. rewrite Hw.
  destruct d as [[] [] [] [] [] [] [] []]; done.
Qed.

(** The segments behind the first one, each with its [::]. *)
Lemma module_path_tail_segments segments rest :
  Forall (fun seg => seg <> [] /\ Forall (fun c => is_word c = true) seg) segments ->
  match rest with d :: _ => is_word d = false /\ d <> ":" | [] => True end ->
  module_path_tail (concat (map (app (L "::")) segments) ++ rest)
  = (concat (map (app (L "::")) segments), rest).
Proof.
  intros Hs Hrest. induction Hs as [|seg segments [Hne Hseg] _ IH].
  - by apply module_path_tail_stop.
  - destruct seg as [|d seg]; [done|]. apply Forall_cons in Hseg as [Hd Hseg].
    cbn [map concat]. rewrite <- !app_assoc.
    change (L "::" ++ (d :: seg) ++ concat (map (app (L "::")) segments) ++ rest)
      with (":" :: ":" :: d :: seg ++ concat (map (app (L "::")) segments) ++ rest).
    cbn [module_path_tail].
    assert (Hcolon : is_word ":" = false) by done. rewrite Hcolon, Hd.
    rewrite module_path_tail_words by done. rewrite IH. done.
Qed.

Lemma join_as_concat sep seg segments :
  join sep (seg :: segments) = seg ++ concat (map (app sep) segments).
Proof.
  revert seg. induction segments as [|s segments IH]; intros seg.
  - cbn. by rewrite app_nil_r.
  - rewrite join_cons, IH. cbn [map concat]. by rewrite <- app_assoc.
Qed.

Lemma module_path_of_segments segments rest :
  segments <> [] ->
  Forall (fun seg => seg <> [] /\ Forall (fun c => is_word c = true) seg) segments ->
  match rest with d :: _ => is_word d = false /\ d <> ":" | [] => True end ->
  module_path (join (L "::") segments ++ rest) = Some (join (L "::") segments, rest).
Proof.
  intros Hne Hs Hrest. destruct segments as [|seg segments]; [done|].
  apply Forall_cons in Hs as [[Hseg0 Hseg] Hs].
  rewrite join_as_concat. destruct seg as [|d seg]; [done|].
  apply Forall_cons in Hseg as [Hd Hseg].
  rewrite <- app_assoc. cbn [app module_path]. rewrite Hd.
  rewrite module_path_tail_words by done.
  rewrite module_path_tail_segments by done. done.
Qed.

(** X8: The simple remap puts [memory::] in front of any path of identifiers
    that follows [use crate::], unless [memory::] stands there already;
    the white space behind [use] becomes one space, and the scan goes on
    behind the path. *)
Theorem simple_remap_nests_a_path (c : ascii) (ws : pystr)
    (segments : list pystr) (rest : pystr)
    (Hspace : forallb is_space (c :: ws) = true)
    (Hne : segments <> [])
    (Hsegs : Forall (fun seg => seg <> [] /\ forallb is_word seg = true) segments)
    (Hrest : match rest with d :: _ => is_word d = false /\ d <> ":" | [] => True end)
    (Hguard : startswith (L "memory::") (join (L "::") segments ++ rest) = false) :
  re_sub pattern1 replace1
    (L "use" ++ c :: ws ++ L "crate::" ++ join (L "::") segments ++ rest)
  = L "use crate::memory::" ++ join (L "::") segments
    ++ re_sub pattern1 replace1 rest.
Proof.
  apply forallb_Forall_true in Hspace. apply Forall_cons in Hspace as [Hc Hws].
  assert (Hsegs' : Forall (fun seg => seg <> [] /\ Forall (fun c => is_word c = true) seg)
                     segments).
  { eapply Forall_impl; [exact Hsegs|]. intros seg [H1 H2].
    split; [done|]. by apply forallb_Forall_true. }
  rewrite (re_sub_match pattern1 replace1 pattern1_shrinks _
             (join (L "::") segments) rest).
  - unfold replace1. by rewrite <- app_assoc.
  - apply pattern1_app; try done. by apply module_path_of_segments.
Qed.

Lemma simple_remap_nests_a_path_witness :
  forallb is_space (newline :: L "  ") = true
  /\ [L "cognitive"; L "types"] <> []
  /\ re_sub pattern1 replace1
       (L "use" ++ newline :: L "  " ++ L "crate::"
          ++ join (L "::") [L "cognitive"; L "types"] ++ L ";")
     = L "use crate::memory::" ++ join (L "::") [L "cognitive"; L "types"]
       ++ re_sub pattern1 replace1 (L ";").
Proof.
  assert (Hne : [L "cognitive"; L "types"] <> []) by done.
  assert (Hsegs : Forall (fun seg => seg <> [] /\ forallb is_word seg = true)
                    [L "cognitive"; L "types"])
    by (repeat constructor; done).
  assert (Hrest : is_word ";" = false /\ ";" <> ":") by (split; done).
  split; [reflexivity|]. split; [exact Hne|].
  exact (simple_remap_nests_a_path newline (L "  ") [L "cognitive"; L "types"] (L ";")
           eq_refl Hne Hsegs Hrest eq_refl).
Defined.

Lemma pattern1_trigger s g rest : pattern1 s = Some (g, rest) -> exists t, s = "u" :: t.
Proof.
  intros H. destruct (pattern1_inv _ _ _ H) as (c & ws & -> & _). by eexists.
Qed.

(** X9: An import that is under [crate::memory::] already is not matched, and
    the scan copies it as it is written, white space included. *)
Theorem nested_import_is_kept (c : ascii) (ws rest : pystr)
    (Hspace : forallb is_space (c :: ws) = true) :
  pattern1 (L "use" ++ c :: ws ++ L "crate::memory::" ++ rest) = None
  /\ re_sub pattern1 replace1 (L "use" ++ c :: ws ++ L "crate::memory::" ++ rest)
     = L "use" ++ c :: ws ++ L "crate::memory::" ++ re_sub pattern1 replace1 rest.
Proof.
  apply forallb_Forall_true in Hspace. apply Forall_cons in Hspace as [Hc Hws].
  assert (Hnone : pattern1 (L "use" ++ c :: ws ++ L "crate::memory::" ++ rest) = None).
  { unfold pattern1. rewrite lit_app. bind_step.
    change (L "crate::memory::" ++ rest) with (L "crate::" ++ L "memory::" ++ rest).
    rewrite (many1_app is_space c ws) by done. bind_step.
    rewrite lit_app. bind_step. by rewrite startswith_app. }
  split; [done|].
  change (L "use" ++ c :: ws ++ L "crate::memory::" ++ rest)
    with ("u" :: (L "se" ++ c :: ws ++ L "crate::memory::" ++ rest)) in *.
  rewrite re_sub_no_match by (apply pattern1_shrinks || done).
  f_equal.
  replace (L "se" ++ c :: ws ++ L "crate::memory::" ++ rest)
    with ((L "se" ++ c :: ws ++ L "crate::memory::") ++ rest)
    by (cbn [app L list_ascii_of_string]; by rewrite <- app_assoc).
  rewrite (re_sub_copy pattern1 replace1 "u" pattern1_shrinks pattern1_trigger).
  - cbn [app L list_ascii_of_string]. by rewrite <- app_assoc.
  - repeat (constructor; [done|]). constructor; [by apply space_not_u|].
    apply Forall_app. split.
    + eapply Forall_impl; [exact Hws|]. apply space_not_u.
    + repeat (constructor; [done|]). constructor.
Qed.

Lemma nested_import_is_kept_witness :
  forallb is_space (" " :: L " ") = true
  /\ pattern1 (L "use" ++ " " :: L " " ++ L "crate::memory::" ++ L "manager::Store;") = None.
Proof.
  split; [reflexivity|].
  exact (proj1 (nested_import_is_kept " " (L " ") (L "manager::Store;") eq_refl)).
Defined.

(** ** The bracketed remap on its own result *)

Lemma skip_while_Forall (P : ascii -> Prop) f s :
  Forall P s -> Forall P (skip_while f s).
Proof.
  induction 1 as [|c s Hc Hs IH]; cbn; [constructor|].
  destruct (f c); [done|by constructor].
Qed.

Lemma strip_Forall (P : ascii -> Prop) s : Forall P s -> Forall P (strip s).
Proof.
  intros H. unfold strip, rstrip, lstrip.
  apply Forall_rev, skip_while_Forall, Forall_rev, skip_while_Forall, H.
Qed.


Lemma split_pieces_no_sep sep s : Forall (Forall (fun c => c <> sep)) (split sep s).
Proof.
  induction s as [|c s IH]; cbn [split]; [by repeat constructor|].
  destruct (Ascii.eqb_spec c sep); [by constructor|].
  destruct (split sep s) as [|h t]; [by repeat constructor|].
  apply Forall_cons in IH as [Hh Ht]. constructor; [by constructor|done].
Qed.

Lemma spec_classify_item_Forall (P : ascii -> Prop) item :
  Forall P (L "memory::") -> Forall P item -> Forall P (spec_classify_item item).
Proof.
  intros Hm Hi. unfold spec_classify_item. destruct (_ || _); [done|].
  by apply Forall_app.
Qed.


Lemma replace2_items_no_comma items :
  Forall (Forall (fun c => c <> ",")) (replace2_items items).
Proof.
  rewrite replace2_items_map. apply Forall_map.
  assert (H : Forall (Forall (fun c => c <> ",")) (item_list_of items)).
  { unfold item_list_of. apply Forall_map.
    eapply Forall_impl; [apply split_pieces_no_sep|]. intros x. apply strip_Forall. }
  induction H as [|x l Hx Hl IH]; cbn [List.filter]; [constructor|].
  destruct (nonempty x); [|done]. constructor; [|done].
  apply spec_classify_item_Forall; [|done]. repeat (constructor; [done|]). constructor.
Qed.

Lemma rstrip_fixed s c : is_space c = false -> rstrip (s ++ [c]) = s ++ [c].
Proof.
  intros Hc. unfold rstrip. rewrite rev_app_distr. cbn [rev app].
  rewrite skip_while_fixed by done.
  change (c :: rev s) with ([c] ++ rev s). by rewrite rev_app_distr, rev_involutive.
Qed.

Lemma exists_last_or_nil {A} (l : list A) : l = [] \/ exists l' a, l = l' ++ [a].
Proof.
  induction l as [|x l IH] using rev_ind; [by left|]. right. by eexists _, _.
Qed.

Lemma stripped_last s a c : strip s = s -> s = a ++ [c] -> is_space c = false.
Proof. intros Hs Ha. rewrite Ha in Hs. by eapply strip_nonspace_last. Qed.

Lemma strip_of_fixed_parts s c :
  is_space c = false -> (exists a d, c :: s = a ++ [d] /\ is_space d = false) ->
  strip (c :: s) = c :: s.
Proof.
  intros Hc (a & d & Ha & Hd). unfold strip, lstrip.
  rewrite skip_while_fixed by done. rewrite Ha. by apply rstrip_fixed.
Qed.

Lemma stripped_parts s :
  strip s = s -> s <> [] ->
  exists c t, s = c :: t /\ is_space c = false
              /\ exists a d, s = a ++ [d] /\ is_space d = false.
Proof.
  intros Hs Hne. destruct s as [|c t]; [done|].
  exists c, t. split; [done|]. split; [by eapply strip_nonspace_head|].
  destruct (exists_last_or_nil (c :: t)) as [|(a & d & Ha)]; [done|].
  exists a, d. split; [done|]. by eapply stripped_last.
Qed.

Lemma strip_space_cons s : strip s = s -> s <> [] -> strip (" " :: s) = s.
Proof.
  intros Hs Hne. destruct (stripped_parts s Hs Hne) as (c & t & -> & Hc & _).
  unfold strip, lstrip in *.
  change (skip_while is_space (" " :: c :: t)) with (skip_while is_space (c :: t)).
  exact Hs.
Qed.

Lemma strip_prefixed s :
  strip s = s -> s <> [] -> strip (L "memory::" ++ s) = L "memory::" ++ s.
Proof.
  intros Hs Hne.
  destruct (stripped_parts s Hs Hne) as (c & t & _ & _ & a & d & -> & Hd).
  apply strip_of_fixed_parts; [done|].
  exists ("m" :: L "emory::" ++ a), d. split; [|done].
  cbn [app L list_ascii_of_string]. by rewrite <- ?app_assoc.
Qed.

Lemma spec_classify_item_stripped item :
  strip item = item -> item <> [] ->
  strip (spec_classify_item item) = spec_classify_item item
  /\ spec_classify_item item <> [].
Proof.
  intros Hs Hne. unfold spec_classify_item.
  destruct (_ || _); [done|]. split; [by apply strip_prefixed|done].
Qed.

Lemma spec_classify_item_idem item :
  spec_classify_item (spec_classify_item item) = spec_classify_item item.
Proof.
  unfold spec_classify_item.
  destruct (startswith (L "memory::") item || is_reserved item) eqn:E.
  - by rewrite E.
  - by rewrite startswith_app.
Qed.

Lemma replace2_items_stripped items :
  Forall (fun item => strip item = item /\ item <> []) (replace2_items items).
Proof.
  rewrite replace2_items_map. apply Forall_map.
  pose proof (item_list_of_stripped items) as H.
  induction H as [|x l Hx Hl IH]; cbn [List.filter]; [constructor|].
  destruct (nonempty x) eqn:E; [|done]. constructor; [|done].
  apply spec_classify_item_stripped; [done|].
  unfold nonempty in E. by apply negb_true_iff, bool_decide_eq_false in E.
Qed.

Lemma split_join_comma x l :
  Forall (Forall (fun c => c <> ",")) (x :: l) ->
  split "," (join (L ", ") (x :: l)) = x :: map (cons " ") l.
Proof.
  revert x. induction l as [|y l IH]; intros x H.
  - apply Forall_cons in H as [Hx _]. by apply split_no_sep.
  - apply Forall_cons in H as [Hx H]. rewrite join_cons.
    change (x ++ L ", " ++ join (L ", ") (y :: l))
      with (x ++ "," :: (" " :: join (L ", ") (y :: l))).
    rewrite split_app, split_no_sep by done.
    cbn [split app]. assert (Hsp : Ascii.eqb " " "," = false) by done.
    rewrite Hsp, IH by done. done.
Qed.

(** The item list read back from the joined new items is the new items. *)
Lemma item_list_of_join l :
  Forall (Forall (fun c => c <> ",")) l ->
  Forall (fun item => strip item = item /\ item <> []) l ->
  List.filter nonempty (item_list_of (join (L ", ") l)) = l.
Proof.
  intros Hc Hs. destruct l as [|x l]; [done|].
  unfold item_list_of. rewrite split_join_comma by done.
  apply Forall_cons in Hs as [[Hx Hxne] Hs]. cbn [map List.filter].
  rewrite Hx. unfold nonempty at 1. rewrite bool_decide_eq_false_2 by done.
  cbn [negb]. f_equal.
  clear Hc Hx Hxne. induction Hs as [|y l [Hy Hyne] _ IH]; [done|].
  cbn [map List.filter]. rewrite strip_space_cons by done.
  unfold nonempty at 1. rewrite bool_decide_eq_false_2 by done. cbn [negb].
  by rewrite IH.
Qed.

(** X10: The bracketed remap on its own result: the items it wrote are read
    back as they are and none of them changes, so the statement is
    rewritten to itself. *)
Theorem replace2_on_its_result (items : pystr) :
  replace2_items (join (L ", ") (replace2_items items)) = replace2_items items
  /\ replace2 (join (L ", ") (replace2_items items)) = replace2 items.
Proof.
  assert (H : replace2_items (join (L ", ") (replace2_items items))
              = replace2_items items).
  { rewrite (replace2_items_map (join _ _)).
    rewrite item_list_of_join
      by (apply replace2_items_no_comma || apply replace2_items_stripped).
    rewrite replace2_items_map, map_map.
    apply map_ext. intros x. apply spec_classify_item_idem. }
  split; [done|]. unfold replace2. by rewrite H.
Qed.

(** ** fix_compilation_errors.py: fix 2 *)

Lemma contains_app_intro p a b : contains p (a ++ p ++ b) = true.
Proof.
  induction a as [|c a IH]; cbn [app].
  - destruct (p ++ b) eqn:E; cbn [contains]; rewrite <- ?E, startswith_app; done.
  - cbn [contains]. rewrite IH. apply orb_true_r.
Qed.

Lemma new_impl_starts_with_marker :
  exists tail, new_impl = newline :: from_string_marker ++ tail.
Proof. eexists. vm_compute. reflexivity. Qed.

(** The text fix 2 writes holds the text fix 2 looks for. *)
Lemma with_from_string_has_marker content :
  contains from_string_marker (with_from_string content) = true.
Proof.
  unfold with_from_string. destruct new_impl_starts_with_marker as [tail ->].
  replace (rstrip content ++ [newline] ++ (newline :: from_string_marker ++ tail)
           ++ [newline])
    with ((rstrip content ++ [newline; newline]) ++ from_string_marker
          ++ (tail ++ [newline])).
  - apply contains_app_intro.
  - rewrite <- !app_assoc. cbn [app]. by rewrite <- !app_assoc.
Qed.

Lemma fix2_run w f :
  fs w !! error_file = Some (File f) ->
  read_error f = None -> write_error f = None ->
  fix2 w =
  let w1 := printed (Say "[2/10] Adding From<String> impl for MemoryError...") w in
  if contains from_string_marker (content f)
  then (Return tt, printed (Say "From<String> already exists") w1)
  else (Return tt,
        printed (Say "Added From<String> and From<&str> implementations")
          (stored error_file (with_content (with_from_string (content f)) f) w1)).
Proof.
  intros Hp Hr Hw. unfold fix2.
  unfold mbind, M_bind, bind, path_exists, print, read_text, write_text.
  cbn [fs printed]. rewrite Hp.
  rewrite bool_decide_eq_true_2 by eauto. cbv beta iota.
  cbn [fs printed]. rewrite Hp, Hr. cbv beta iota.
  destruct (contains from_string_marker (content f)); cbn [negb]; cbv beta iota zeta;
    [done|].
  cbn [fs printed]. rewrite Hp, Hw. done.
Qed.

(** X11: Fix 2 is safe to run again: after one run the file holds the
    implementation, and a second run writes nothing.  A file that held
    it from the start is never written. *)
Theorem fix2_appends_once (w : world) (f : file)
    (Hp : fs w !! error_file = Some (File f))
    (Hr : read_error f = None) (Hw : write_error f = None) :
  let r1 := fix2 w in
  let r2 := fix2 r1.2 in
  let text :=
    if contains from_string_marker (content f) then content f
    else with_from_string (content f) in
  text_of r1.2 error_file = Some text
  /\ contains from_string_marker text = true
  /\ writes r1.2
     = writes w ++ (if contains from_string_marker (content f) then []
                    else [(error_file, text)])
  /\ r2.1 = Return tt
  /\ fs r2.2 = fs r1.2
  /\ writes r2.2 = writes r1.2.
Proof.
  intros r1 r2 text.
  assert (Htext : contains from_string_marker text = true).
  { unfold text. destruct (contains from_string_marker (content f)) eqn:E; [done|].
    apply with_from_string_has_marker. }
  assert (H1 : exists f1, fs r1.2 !! error_file = Some (File f1)
                          /\ read_error f1 = None /\ write_error f1 = None
                          /\ content f1 = text).
  { unfold r1, text. rewrite (fix2_run w f) by done. cbv zeta.
    destruct (contains from_string_marker (content f)).
    - exists f. cbn [snd fs printed]. done.
    - eexists. cbn [snd fs printed stored]. rewrite lookup_insert_eq. done. }
  destruct H1 as (f1 & Hp1 & Hr1 & Hw1 & Hc1).
  assert (H2 : r2 = (Return tt,
                     printed (Say "From<String> already exists")
                       (printed (Say "[2/10] Adding From<String> impl for MemoryError...")
                          r1.2))).
  { unfold r2. rewrite (fix2_run r1.2 f1) by done. cbv zeta.
    by rewrite Hc1, Htext. }
  split_and!.
  - unfold text_of. by rewrite Hp1, Hc1.
  - done.
  - unfold r1, text. rewrite (fix2_run w f) by done. cbv zeta.
    destruct (contains from_string_marker (content f)); cbn [snd writes printed stored].
    + by rewrite app_nil_r.
    + done.
  - by rewrite H2.
  - by rewrite H2.
  - by rewrite H2.
Qed.

Lemma fix2_appends_once_witness :
  let w := world_of (<[error_file := File (plain_file (L "pub enum Error {}  "))]> ∅) in
  fs w !! error_file = Some (File (plain_file (L "pub enum Error {}  ")))
  /\ writes (fix2 (fix2 w).2).2 = writes (fix2 w).2.
Proof.
  intros w.
  assert (Hp : fs w !! error_file = Some (File (plain_file (L "pub enum Error {}  "))))
    by (vm_compute; reflexivity).
  split; [exact Hp|].
  exact (proj2 (proj2 (proj2 (proj2 (proj2
    (fix2_appends_once w (plain_file (L "pub enum Error {}  ")) Hp eq_refl eq_refl)))))).
Defined.

(** ** fix_compilation_errors.py: fix 1 *)

Lemma test_starts_no_marker i first lines rest :
  Forall (fun line => is_test_marker line = false) lines ->
  test_starts i first (lines ++ rest) = test_starts (i + length lines) first rest.
Proof.
  intros H. revert i. induction H as [|line lines Hl _ IH]; intros i.
  - by rewrite Nat.add_0_r.
  - cbn [app test_starts length]. rewrite Hl, IH. f_equal. lia.
Qed.

Lemma test_end_ge s i brace_count rest :
  s <= i -> s <= test_end s i brace_count rest.
Proof.
  revert i brace_count. induction rest as [|line rest IH]; intros i bc Hi; [done|].
  cbn [test_end].
  destruct (_ && _); [done|]. apply IH. lia.
Qed.

(** [s.split(sep)] of [sep.join(lines)] gives the lines back when no line
    holds the separator. *)
Lemma split_join sep line lines :
  Forall (Forall (fun c => c <> sep)) (line :: lines) ->
  split sep (join [sep] (line :: lines)) = line :: lines.
Proof.
  revert line. induction lines as [|l lines IH]; intros line H.
  - apply Forall_cons in H as [H _]. by apply split_no_sep.
  - apply Forall_cons in H as [Hl H]. rewrite join_cons.
    change (line ++ [sep] ++ join [sep] (l :: lines))
      with (line ++ sep :: join [sep] (l :: lines)).
    rewrite split_app, split_no_sep, IH by done. done.
Qed.

(** The two tests on a brace add up to adding the count. *)
Lemma count_char_absent c line : has_char c line = false -> count_char c line = 0%Z.
Proof.
  unfold has_char, count_char. intros H.
  induction line as [|d line IH]; [done|].
  cbn [existsb] in H. apply orb_false_iff in H as [Hd H].
  cbn [List.filter]. rewrite Hd. by apply IH.
Qed.

Lemma test_end_cons s i brace_count line rest :
  test_end s i brace_count (line :: rest) =
  let brace_count := (brace_count + brace_balance [line])%Z in
  if (brace_count =? 0)%Z && (s <? i)%nat then i
  else test_end s (S i) brace_count rest.
Proof.
  cbn [test_end]. cbv zeta.
  assert (Heq : (if has_char "}" line
                 then ((if has_char "{" line
                        then brace_count + count_char "{" line else brace_count)
                       - count_char "}" line)
                 else (if has_char "{" line
                       then brace_count + count_char "{" line else brace_count))%Z
                = (brace_count + brace_balance [line])%Z).
  { unfold brace_balance. cbn [foldr].
    destruct (has_char "{" line) eqn:Ho, (has_char "}" line) eqn:Hc;
      rewrite ?(count_char_absent _ _ Ho), ?(count_char_absent _ _ Hc); lia. }
  by rewrite Heq.
Qed.

Lemma brace_balance_cons line lines :
  brace_balance (line :: lines) = (brace_balance [line] + brace_balance lines)%Z.
Proof. unfold brace_balance. cbn [foldr]. lia. Qed.

(** The second loop stops at the first line behind the start at which the
    running count is zero. *)
Lemma test_end_first_zero s k :
  forall rest i brace_count,
    k < length rest ->
    (brace_count + brace_balance (take (S k) rest) = 0)%Z ->
    s < i + k ->
    (forall j, j < k -> s < i + j ->
               (brace_count + brace_balance (take (S j) rest))%Z <> 0%Z) ->
    test_end s i brace_count rest = i + k.
Proof.
  induction k as [|k IH]; intros rest i bc Hk Hz Hs Hmin;
    (destruct rest as [|line rest]; [simpl in Hk; lia|]);
    rewrite test_end_cons; cbv zeta.
  - cbn [take] in Hz. rewrite take_0 in Hz.
    rewrite (proj2 (Z.eqb_eq _ _) Hz), (proj2 (Nat.ltb_lt _ _)) by lia.
    cbn [andb]. lia.
  - assert (Hgo : (bc + brace_balance [line] =? 0)%Z && (s <? i)%nat = false).
    { destruct (s <? i)%nat eqn:Hlt; [|apply andb_false_r].
      apply Nat.ltb_lt in Hlt. rewrite andb_true_r. apply Z.eqb_neq.
      specialize (Hmin 0). cbn [take] in Hmin. rewrite take_0 in Hmin.
      apply Hmin; lia. }
    rewrite Hgo. rewrite (IH rest (S i) (bc + brace_balance [line])%Z).
    + lia.
    + simpl in Hk. lia.
    + cbn [take] in Hz. rewrite brace_balance_cons in Hz. lia.
    + lia.
    + intros j Hj Hsj. specialize (Hmin (S j)). cbn [take] in Hmin.
      rewrite brace_balance_cons in Hmin.
      assert (Hne : (bc + (brace_balance [line] + brace_balance (take (S j) rest)))%Z
                    <> 0%Z) by (apply Hmin; lia).
      lia.
Qed.

(** And it leaves the end at the start when no later line brings the
    count to zero. *)
Lemma test_end_no_zero s :
  forall rest i brace_count,
    (forall j, j < length rest -> s < i + j ->
               (brace_count + brace_balance (take (S j) rest))%Z <> 0%Z) ->
    test_end s i brace_count rest = s.
Proof.
  induction rest as [|line rest IH]; intros i bc Hmin; [done|].
  rewrite test_end_cons; cbv zeta.
  assert (Hgo : (bc + brace_balance [line] =? 0)%Z && (s <? i)%nat = false).
  { destruct (s <? i)%nat eqn:Hlt; [|apply andb_false_r].
    apply Nat.ltb_lt in Hlt. rewrite andb_true_r. apply Z.eqb_neq.
    specialize (Hmin 0). cbn [take] in Hmin. rewrite take_0 in Hmin.
    apply Hmin; simpl; lia. }
  rewrite Hgo. apply IH. intros j Hj Hsj.
  specialize (Hmin (S j)). cbn [take] in Hmin. rewrite brace_balance_cons in Hmin.
  assert (Hne : (bc + (brace_balance [line] + brace_balance (take (S j) rest)))%Z
                <> 0%Z) by (apply Hmin; simpl; lia).
  lia.
Qed.

(** The attribute line and the module line of one test module are two
    markers for the first loop. *)
Lemma without_second_tests_one_module (pre rest : list pystr) (attribute module : pystr)
    (Hpre : Forall (fun line => is_test_marker line = false) pre)
    (Hattr : strip attribute = L "#[cfg(test)]")
    (Hmod : startswith (L "mod tests {") (strip module) = true)
    (Hlines : Forall (Forall (fun c => c <> newline))
                (pre ++ attribute :: module :: rest)) :
  let s := S (length pre) in
  let e := test_end s s 0 (module :: rest) in
  s <= e
  /\ without_second_tests (join [newline] (pre ++ attribute :: module :: rest))
     = Some (join [newline] (pre ++ attribute :: drop (e - s) rest), s, e).
Proof.
  intros s e.
  set (lines := pre ++ attribute :: module :: rest).
  assert (Hsplit : split newline (join [newline] lines) = lines).
  { unfold lines in *. destruct pre as [|p pre]; cbn [app] in *; by apply split_join. }
  assert (Hstarts : test_starts 0 None lines = (Some (length pre), Some s)).
  { unfold lines. rewrite test_starts_no_marker by done. cbn [test_starts].
    assert (Ha : is_test_marker attribute = true).
    { unfold is_test_marker. rewrite Hattr.
      rewrite bool_decide_eq_true_2 by done. apply orb_true_r. }
    assert (Hm : is_test_marker module = true)
      by (unfold is_test_marker; by rewrite Hmod).
    by rewrite Ha, Hm. }
  assert (Hlen : length (pre ++ [attribute]) = s)
    by (rewrite length_app; unfold s; simpl; lia).
  assert (Hdrop : drop s lines = module :: rest).
  { unfold lines.
    replace (pre ++ attribute :: module :: rest)
      with ((pre ++ [attribute]) ++ module :: rest) by (by rewrite <- app_assoc).
    by rewrite drop_app_length' by done. }
  assert (He : s <= e) by (by apply test_end_ge).
  split; [done|].
  unfold without_second_tests. rewrite Hsplit, Hstarts. cbn [snd].
  replace (0 <? s)%nat with true by (symmetry; apply Nat.ltb_lt; unfold s; lia).
  rewrite Hdrop. fold e. do 3 f_equal.
  unfold lines.
  replace (pre ++ attribute :: module :: rest)
    with ((pre ++ [attribute]) ++ module :: rest) by (by rewrite <- app_assoc).
  rewrite take_app_length' by done.
  rewrite drop_app_ge by (rewrite Hlen; lia).
  rewrite Hlen. rewrite <- app_assoc. cbn [app]. do 2 f_equal.
  replace (e + 1 - s) with (S (e - s)) by lia.
  done.
Qed.

(** A text with at most one marker line has no second test module. *)
Lemma without_second_tests_one_marker (content : pystr)
    (Hone : exists pre post,
              split newline content = pre ++ post
              /\ Forall (fun line => is_test_marker line = false) pre
              /\ Forall (fun line => is_test_marker line = false) (tail post)) :
  without_second_tests content = None.
Proof.
  destruct Hone as (pre & post & Hsplit & Hpre & Hpost).
  unfold without_second_tests. rewrite Hsplit.
  rewrite test_starts_no_marker by done.
  assert (H : forall i first lines,
            Forall (fun line => is_test_marker line = false) lines ->
            (test_starts i first lines).2 = None).
  { intros i first lines Hl. revert i. induction Hl as [|l lines Hm _ IH]; intros i.
    - done.
    - cbn [test_starts]. rewrite Hm. apply IH. }
  destruct post as [|line post]; [done|]. cbn [tail] in Hpost.
  cbn [test_starts].
  destruct (is_test_marker line); by rewrite H.
Qed.


Lemma fix1_run w f :
  fs w !! orchestration_file = Some (File f) ->
  read_error f = None -> write_error f = None ->
  fix1 w =
  let w1 :=
    printed (Say "[1/10] Fixing duplicate tests module in orchestration.rs...") w in
  match without_second_tests (content f) with
  | Some (new_content, second_test_start, second_test_end) =>
      (Return tt,
       printed (Say ("Removed duplicate tests module (lines "
                     +:+ decimal second_test_start +:+ "-"
                     +:+ decimal second_test_end +:+ ")"))
         (stored orchestration_file (with_content new_content f) w1))
  | None => (Return tt, printed (Say "No duplicate found") w1)
  end.
Proof.
  intros Hp Hr Hw. unfold fix1.
  unfold mbind, M_bind, bind, path_exists, print, read_text, write_text.
  cbn [fs printed]. rewrite Hp.
  rewrite bool_decide_eq_true_2 by eauto. cbv beta iota.
  cbn [fs printed]. rewrite Hp, Hr. cbv beta iota zeta.
  destruct (without_second_tests (content f)) as [[[new s] e]|]; [|done].
  cbv beta iota. cbn [fs printed]. rewrite Hp, Hw. done.
Qed.

(** X12: Fix 1 takes the two lines of one test module for two modules: with
    no marker line before them, an attribute line [#[cfg(test)]] directly
    followed by a [mod tests {] line makes the fix rewrite the file.  The
    attribute line stays; the cut starts at the [mod tests {] line and ends
    at the first later line at which the braces counted from the
    [mod tests {] line on balance, that line included; when no later line
    balances them, the [mod tests {] line alone is cut. *)
Theorem fix1_takes_one_module_for_two (w : world) (f : file)
    (pre rest : list pystr) (attribute module : pystr)
    (Hp : fs w !! orchestration_file = Some (File f))
    (Hr : read_error f = None) (Hw : write_error f = None)
    (Hc : content f = join [newline] (pre ++ attribute :: module :: rest))
    (Hpre : Forall (fun line => is_test_marker line = false) pre)
    (Hattr : strip attribute = L "#[cfg(test)]")
    (Hmod : startswith (L "mod tests {") (strip module) = true)
    (Hlines : Forall (Forall (fun c => c <> newline))
                (pre ++ attribute :: module :: rest)) :
  (fix1 w).1 = Return tt
  /\ (forall k,
        0 < k <= length rest ->
        brace_balance (module :: take k rest) = 0%Z ->
        (forall j, 0 < j < k -> brace_balance (module :: take j rest) <> 0%Z) ->
        writes (fix1 w).2
        = writes w
          ++ [(orchestration_file, join [newline] (pre ++ attribute :: drop k rest))])
  /\ ((forall j, 0 < j <= length rest ->
                 brace_balance (module :: take j rest) <> 0%Z) ->
      writes (fix1 w).2
      = writes w ++ [(orchestration_file, join [newline] (pre ++ attribute :: rest))]).
Proof.
  destruct (without_second_tests_one_module pre rest attribute module
              Hpre Hattr Hmod Hlines) as [_ Hcut].
  cbv zeta in Hcut.
  rewrite (fix1_run w f) by done. rewrite Hc, Hcut. cbv zeta.
  cbn [fst snd writes printed stored content with_content].
  split_and!; [done| |].
  - intros k Hk Hz Hmin.
    rewrite (test_end_first_zero (S (length pre)) k).
    + replace (S (length pre) + k - S (length pre)) with k by lia. done.
    + simpl. lia.
    + cbn [take]. lia.
    + lia.
    + intros j Hj Hsj. cbn [take].
      assert (Hne : brace_balance (module :: take j rest) <> 0%Z)
        by (apply Hmin; lia).
      lia.
  - intros Hmin.
    rewrite (test_end_no_zero (S (length pre))).
    + by rewrite Nat.sub_diag.
    + intros j Hj Hsj. cbn [take].
      assert (Hne : brace_balance (module :: take j rest) <> 0%Z)
        by (apply Hmin; simpl in Hj; lia).
      lia.
Qed.

Lemma fix1_takes_one_module_for_two_witness :
  let text :=
    join [newline]
      ([L "fn a() {}"] ++ L "#[cfg(test)]" :: L "mod tests {"
         :: [L "  fn t() {}"; L "}"; L "fn b() {}"]) in
  let w := world_of (<[orchestration_file := File (plain_file text)]> ∅) in
  fs w !! orchestration_file = Some (File (plain_file text))
  /\ Forall (fun line => is_test_marker line = false) [L "fn a() {}"]
  /\ brace_balance (L "mod tests {" :: take 2 [L "  fn t() {}"; L "}"; L "fn b() {}"])
     = 0%Z
  /\ writes (fix1 w).2
     = writes w
       ++ [(orchestration_file,
            join [newline]
              ([L "fn a() {}"] ++ L "#[cfg(test)]"
                 :: drop 2 [L "  fn t() {}"; L "}"; L "fn b() {}"]))].
Proof.
  intros text w.
  assert (Hp : fs w !! orchestration_file = Some (File (plain_file text)))
    by (vm_compute; reflexivity).
  assert (Hpre : Forall (fun line => is_test_marker line = false) [L "fn a() {}"])
    by (repeat constructor).
  assert (Hlines : Forall (Forall (fun c => c <> newline))
                     ([L "fn a() {}"] ++ L "#[cfg(test)]" :: L "mod tests {"
                        :: [L "  fn t() {}"; L "}"; L "fn b() {}"])).
  { repeat (constructor; [repeat (constructor; [done|]); constructor|]). constructor. }
  assert (Hk : 0 < 2 <= length [L "  fn t() {}"; L "}"; L "fn b() {}"])
    by (simpl; lia).
  assert (Hz : brace_balance
                 (L "mod tests {" :: take 2 [L "  fn t() {}"; L "}"; L "fn b() {}"])
               = 0%Z) by (vm_compute; reflexivity).
  assert (Hmin : forall j, 0 < j < 2 ->
            brace_balance
              (L "mod tests {" :: take j [L "  fn t() {}"; L "}"; L "fn b() {}"])
            <> 0%Z).
  { intros j Hj. assert (j = 1) as -> by lia. vm_compute. discriminate. }
  split; [exact Hp|]. split; [exact Hpre|]. split; [exact Hz|].
  exact (proj1 (proj2
    (fix1_takes_one_module_for_two w (plain_file text) [L "fn a() {}"]
       [L "  fn t() {}"; L "}"; L "fn b() {}"] (L "#[cfg(test)]") (L "mod tests {")
       Hp eq_refl eq_refl eq_refl Hpre eq_refl eq_refl Hlines)) 2 Hk Hz Hmin).
Defined.

(** X13: A file with at most one marker line is left alone by fix 1: nothing
    is written. *)
Theorem fix1_needs_two_markers (w : world) (f : file)
    (Hp : fs w !! orchestration_file = Some (File f))
    (Hr : read_error f = None) (Hw : write_error f = None)
    (Hone : exists pre post,
              split newline (content f) = pre ++ post
              /\ Forall (fun line => is_test_marker line = false) pre
              /\ Forall (fun line => is_test_marker line = false) (tail post)) :
  (fix1 w).1 = Return tt
  /\ fs (fix1 w).2 = fs w
  /\ writes (fix1 w).2 = writes w.
Proof.
  rewrite (fix1_run w f) by done.
  by rewrite (without_second_tests_one_marker _ Hone).
Qed.

Lemma fix1_needs_two_markers_witness :
  let text := L "fn a() {}" ++ newline :: L "mod tests {" ++ newline :: L "}" in
  let w := world_of (<[orchestration_file := File (plain_file text)]> ∅) in
  fs w !! orchestration_file = Some (File (plain_file text))
  /\ writes (fix1 w).2 = writes w.
Proof.
  intros text w.
  assert (Hp : fs w !! orchestration_file = Some (File (plain_file text)))
    by (vm_compute; reflexivity).
  assert (H : exists pre post,
     split newline (content (plain_file text)) = pre ++ post
     /\ Forall (fun line => is_test_marker line = false) pre
     /\ Forall (fun line => is_test_marker line = false) (tail post)).
  { exists [L "fn a() {}"], [L "mod tests {"; L "}"].
    split; [vm_compute; reflexivity|]. split; repeat constructor. }
  split; [exact Hp|].
  exact (proj2 (proj2 (fix1_needs_two_markers w (plain_file text) Hp eq_refl eq_refl H))).
Defined.

(** ** The bracketed statement in a text *)

Section re_sub_skip.
Context {A : Type} (pat : pattern A) (repl : A -> pystr).
Hypothesis pat_shrinks : shrinks pat.

End re_sub_skip.

Lemma contains_app_r p a t : contains p t = true -> contains p (a ++ t) = true.
Proof.
  intros H. induction a as [|c a IH]; [done|].
  cbn [app contains]. rewrite IH. apply orb_true_r.
Qed.

Lemma contains_suffix_false p a t : contains p (a ++ t) = false -> contains p t = false.
Proof.
  intros H. destruct (contains p t) eqn:E; [|done]. by rewrite contains_app_r in H.
Qed.

Lemma contains_startswith p s : startswith p s = true -> contains p s = true.
Proof. intros H. destruct s; cbn [contains]; by rewrite H. Qed.











(** ** Which errors end the run *)

(** Every way [add_memory_module_to_lib] can go. *)
Lemma add_memory_module_to_lib_cases lib w :
  add_memory_module_to_lib lib w =
  match fs w !! lib with
  | None => (Return false, printed (WarnNotFound lib) w)
  | Some Dir => (Raise IsADirectoryError, w)
  | Some (File f) =>
      match read_error f with
      | Some e => (Raise e, w)
      | None =>
          if memory_module_declared (content f)
          then (Return false, printed AlreadyDeclared w)
          else match write_error f with
               | Some e => (Raise e, w)
               | None =>
                   (Return true,
                    printed AddedDeclaration
                      (stored lib (with_content (with_memory_module (content f)) f) w))
               end
      end
  end.
Proof.
  unfold add_memory_module_to_lib.
  unfold mbind, M_bind, bind, mret, M_ret, ret, path_exists, print, read_text, write_text.
  destruct (fs w !! lib) as [[|f]|] eqn:E.
  - rewrite bool_decide_eq_true_2 by eauto. cbn [negb]. by rewrite E.
  - rewrite bool_decide_eq_true_2 by eauto. cbn [negb]. rewrite E.
    destruct (read_error f); [done|].
    destruct (memory_module_declared (content f)); [done|].
    rewrite E. by destruct (write_error f).
  - rewrite bool_decide_eq_false_2 by (by intros [? ?]). done.
Qed.

(** Once the anchor file is dealt with, [main] goes through all the
    files and returns. *)
Lemma main_after_anchor script_dir w b w1 :
  let candle_src := script_dir ++ [L "packages"; L "candle"; L "src"] in
  let lib_rs := candle_src ++ [L "lib.rs"] in
  is_Some (fs w !! candle_src) ->
  add_memory_module_to_lib lib_rs (logged (main_banner candle_src) w) = (Return b, w1) ->
  exists files changed w',
    rglob_rs candle_src (printed (Say "Processing Rust files...") w1)
    = (Return files, printed (Say "Processing Rust files...") w1)
    /\ process_all candle_src files 0 0 (printed (Say "Processing Rust files...") w1)
       = (Return (length files, changed), w')
    /\ main script_dir w = (Return tt, logged (main_summary (length files, changed)) w').
Proof.
  intros src lib Hsrc Hadd.
  destruct (rglob_rs_under src (printed (Say "Processing Rust files...") w1))
    as (files & Hfiles & Hunder).
  destruct (process_all_total src files 0 0
              (printed (Say "Processing Rust files...") w1) Hunder)
    as (changed & w' & Hall).
  exists files, changed, w'. split_and!; [done|done|].
  rewrite main_with_src by done. fold src lib. rewrite Hadd. cbv zeta.
  by rewrite Hfiles, Hall.
Qed.

(** C5 as stated fails: the anchor file is missing, and the run ends
    normally after it has rewritten both candidate files. *)
Lemma missing_anchor_run_rewrites_files :
  fs tree_without_anchor !! example_lib = None
  /\ (main example_root tree_without_anchor).1 = Return tt
  /\ text_of tree_without_anchor example_managed
     = Some (L "use crate::cognitive::types;")
  /\ text_of (main example_root tree_without_anchor).2 example_managed
     = Some (L "use crate::memory::cognitive::types;")
  /\ text_of tree_without_anchor example_unmanaged
     = Some (L "use paraphym_memory::Widget;")
  /\ text_of (main example_root tree_without_anchor).2 example_unmanaged
     = Some (L "use paraphym_candle::memory::Widget;")
  /\ length (writes (main example_root tree_without_anchor).2) = 2.
Proof. vm_compute. split_and!; reflexivity. Qed.

(** C5, as the code has it.  A missing source directory ends the run
    before anything is touched, and [main] returns.  A missing anchor file
    is a warning, after which every candidate is processed.  An exception
    leaves [main] exactly when the anchor file is there and is a
    directory, cannot be read, or lacks the declaration and cannot be
    written; it leaves [main] behind the banner, with no candidate
    processed and no file written.  In every other run with a source
    directory [main] goes through all the files [rglob] lists and returns.
    [process_rust_file] raises nothing: a file it cannot read or cannot
    write is reported and left as it was, and the loop goes through all
    the files it is given. *)
Theorem per_file_errors_are_contained (script_dir : Path) (w : world) :
  let candle_src := script_dir ++ [L "packages"; L "candle"; L "src"] in
  let lib_rs := candle_src ++ [L "lib.rs"] in
  (fs w !! candle_src = None ->
   main script_dir w = (Return tt, printed (ErrorSrcNotFound candle_src) w))
  /\ (is_Some (fs w !! candle_src) -> fs w !! lib_rs = None ->
      exists files changed w',
        rglob_rs candle_src w = (Return files, w)
        /\ process_all candle_src files 0 0
             (logged (main_banner candle_src
                      ++ [WarnNotFound lib_rs; Say "Processing Rust files..."]) w)
           = (Return (length files, changed), w')
        /\ main script_dir w
           = (Return tt, logged (main_summary (length files, changed)) w'))
  /\ (forall e,
        (main script_dir w).1 = Raise e
        <-> is_Some (fs w !! candle_src)
            /\ ((fs w !! lib_rs = Some Dir /\ e = IsADirectoryError)
                \/ exists f,
                     fs w !! lib_rs = Some (File f)
                     /\ (read_error f = Some e
                         \/ (read_error f = None
                             /\ memory_module_declared (content f) = false
                             /\ write_error f = Some e))))
  /\ (forall e,
        (main script_dir w).1 = Raise e ->
        main script_dir w = (Raise e, logged (main_banner candle_src) w)
        /\ fs (main script_dir w).2 = fs w
        /\ writes (main script_dir w).2 = writes w)
  /\ (is_Some (fs w !! candle_src) ->
      (forall e, (main script_dir w).1 <> Raise e) ->
      exists b w1 files changed w',
        add_memory_module_to_lib lib_rs (logged (main_banner candle_src) w)
        = (Return b, w1)
        /\ rglob_rs candle_src (printed (Say "Processing Rust files...") w1)
           = (Return files, printed (Say "Processing Rust files...") w1)
        /\ process_all candle_src files 0 0 (printed (Say "Processing Rust files...") w1)
           = (Return (length files, changed), w')
        /\ main script_dir w
           = (Return tt, logged (main_summary (length files, changed)) w'))
  /\ (forall p w0, exists b w', process_rust_file p candle_src w0 = (Return b, w'))
  /\ (forall p w0 e,
        read_text p w0 = (Raise e, w0) ->
        process_rust_file p candle_src w0
        = (Return false, printed (ErrorProcessing p e) w0))
  /\ (forall p w0 f e,
        fs w0 !! p = Some (File f) -> read_error f = None -> write_error f = Some e ->
        exists out,
          process_rust_file p candle_src w0 = (Return false, logged out w0))
  /\ (forall files n m w0,
        Forall (fun p => candle_src `prefix_of` p) files ->
        exists changed w',
          process_all candle_src files n m w0 = (Return (n + length files, changed), w')).
Proof.
  intros src lib.
  (* what [main] does, by the state of the anchor file *)
  assert (Hmain : is_Some (fs w !! src) ->
            match add_memory_module_to_lib lib (logged (main_banner src) w) with
            | (Raise e, w1) =>
                w1 = logged (main_banner src) w
                /\ main script_dir w = (Raise e, logged (main_banner src) w)
            | (Return b, w1) =>
                exists files changed w',
                  rglob_rs src (printed (Say "Processing Rust files...") w1)
                  = (Return files, printed (Say "Processing Rust files...") w1)
                  /\ process_all src files 0 0
                       (printed (Say "Processing Rust files...") w1)
                     = (Return (length files, changed), w')
                  /\ main script_dir w
                     = (Return tt, logged (main_summary (length files, changed)) w')
            end).
  { intros Hsrc.
    destruct (add_memory_module_to_lib lib (logged (main_banner src) w))
      as [[b|e] w1] eqn:Hadd.
    - by apply (main_after_anchor script_dir w b w1).
    - assert (Hw1 : w1 = logged (main_banner src) w).
      { rewrite add_memory_module_to_lib_cases in Hadd. cbn [fs logged] in Hadd.
        destruct (fs w !! lib) as [[|f]|]; [congruence| |congruence].
        destruct (read_error f); [congruence|].
        destruct (memory_module_declared (content f)); [congruence|].
        destruct (write_error f); congruence. }
      split; [done|]. rewrite main_with_src by done. fold src lib.
      by rewrite Hadd, Hw1. }
  assert (Hraise : forall e,
            (main script_dir w).1 = Raise e
            <-> is_Some (fs w !! src)
                /\ ((fs w !! lib = Some Dir /\ e = IsADirectoryError)
                    \/ exists f,
                         fs w !! lib = Some (File f)
                         /\ (read_error f = Some e
                             \/ (read_error f = None
                                 /\ memory_module_declared (content f) = false
                                 /\ write_error f = Some e)))).
  { intros e. destruct (fs w !! src) as [n|] eqn:Esrc.
    - specialize (Hmain (ltac:(eauto))).
      rewrite add_memory_module_to_lib_cases in Hmain. cbn [fs logged] in Hmain.
      destruct (fs w !! lib) as [[|f]|] eqn:Elib.
      + destruct Hmain as [_ ->]. cbn [fst]. split.
        * intros [= <-]. split; [eauto|]. by left.
        * intros [_ [[_ ->]|(f & Hf & _)]]; [done|congruence].
      + destruct (read_error f) as [e'|] eqn:Er.
        { destruct Hmain as [_ ->]. cbn [fst]. split.
          - intros [= <-]. split; [eauto|]. right. exists f. auto.
          - intros [_ [[Hd _]|(f' & [= <-] & [He|(He & _)])]]; congruence. }
        destruct (memory_module_declared (content f)) eqn:Ed.
        { destruct Hmain as (files & changed & w' & _ & _ & ->). cbn [fst]. split.
          - done.
          - intros [_ [[Hd _]|(f' & [= <-] & [He|(_ & Hd' & _)])]]; congruence. }
        destruct (write_error f) as [e'|] eqn:Ew.
        { destruct Hmain as [_ ->]. cbn [fst]. split.
          - intros [= <-]. split; [eauto|]. right. exists f. split; [done|].
            right. done.
          - intros [_ [[Hd _]|(f' & [= <-] & [He|(_ & _ & He)])]]; congruence. }
        destruct Hmain as (files & changed & w' & _ & _ & ->). cbn [fst]. split.
        * done.
        * intros [_ [[Hd _]|(f' & [= <-] & [He|(_ & _ & He)])]]; congruence.
      + destruct Hmain as (files & changed & w' & _ & _ & ->). cbn [fst]. split.
        * done.
        * intros [_ [[Hd _]|(f' & Hf & _)]]; congruence.
    - rewrite main_without_src by done. cbn [fst]. split; [done|].
      by intros [[? ?] _]. }
  split_and!.
  - apply main_without_src.
  - apply main_without_anchor.
  - exact Hraise.
  - intros e He. pose proof (proj1 (proj1 (Hraise e) He)) as Hsrc.
    specialize (Hmain Hsrc).
    destruct (add_memory_module_to_lib lib (logged (main_banner src) w))
      as [[b|e'] w1].
    + destruct Hmain as (files & changed & w' & _ & _ & Hm).
      rewrite Hm in He. done.
    + destruct Hmain as [_ Hm]. rewrite Hm in He |- *. cbn [fst] in He.
      injection He as ->. done.
  - intros Hsrc Hno. specialize (Hmain Hsrc).
    destruct (add_memory_module_to_lib lib (logged (main_banner src) w))
      as [[b|e'] w1].
    + destruct Hmain as (files & changed & w' & H1 & H2 & H3).
      by exists b, w1, files, changed, w'.
    + destruct Hmain as [_ Hm]. exfalso. apply (Hno e'). by rewrite Hm.
  - intros p w0. apply process_rust_file_total.
  - intros p w0 e. apply process_rust_file_unreadable.
  - intros p w0 f e Hp Hr Hw.
    destruct (process_rust_file_readable p src w0 f Hp Hr) as [out ->].
    rewrite Hw. destruct (bool_decide _); [by eauto|].
    eexists. by rewrite printed_logged.
  - intros files n m w0. apply process_all_total.
Qed.

(** ** Where the declaration goes *)

(** A literal cannot start in a text that does not hold it and ends with
    a newline, when the literal has no newline in it. *)
Lemma lit_fails_before p t z :
  contains p t = false -> last t = Some newline ->
  Forall (fun c => c <> newline) p ->
  lit p (t ++ z) = None.
Proof.
  intros Hc Hlast Hp. destruct (lit p (t ++ z)) as [r|] eqn:E; [|done].
  exfalso. apply lit_inv in E.
  destruct (app_eq_app_cases _ _ _ _ E) as [[Hl _]|[p' Hp']].
  - apply (f_equal (take (length t))) in E.
    rewrite take_app_length, take_app_le in E by lia.
    apply last_Some_elem_of in Hlast. rewrite E in Hlast.
    apply (Forall_take _ (length t)) in Hp.
    rewrite Forall_forall in Hp. by apply (Hp newline).
  - rewrite Hp', app_assoc in E. apply app_inv_tail in E.
    assert (Hin : contains p t = true)
      by (rewrite E; apply contains_startswith, startswith_app).
    congruence.
Qed.

Lemma contains_cons_false p c s :
  contains p (c :: s) = false -> contains p s = false.
Proof. apply (contains_suffix_false p [c]). Qed.

(** Behind lines that hold no [pub] and are not all blank, the first
    thing that is not white space is not [pub]. *)
Lemma lit_pub_fails_behind t z :
  contains (L "pub") t = false -> last t = Some newline ->
  ~ Forall (fun c => is_space c = true) t ->
  lit (L "pub") (skip_while is_space (t ++ z)) = None.
Proof.
  induction t as [|c t IH]; intros Hc Hlast Hsp; [by destruct Hsp|].
  cbn [app skip_while]. destruct (is_space c) eqn:Ec.
  - assert (Ht : ~ Forall (fun c => is_space c = true) t)
      by (intros H; apply Hsp; by constructor).
    apply IH; [by apply contains_cons_false in Hc| |done].
    destruct t as [|d t]; [by destruct Ht|]. by rewrite last_cons_cons in Hlast.
  - apply (lit_fails_before (L "pub") (c :: t)); [done|done|].
    repeat (constructor; [done|]). constructor.
Qed.

Lemma word_not_newline c : is_word c = true -> c <> newline.
Proof. by intros H ->. Qed.

Lemma word_not_semicolon c : is_word c = true -> c <> ";".
Proof. by intros H ->. Qed.

(** A [pub mod] declaration, however it is spaced, is a match of the
    sibling pattern. *)
Lemma pub_mod_pattern_app indent c1 gap1 c2 gap2 n name gap3 after :
  Forall (fun c => is_space c = true) (indent ++ c1 :: gap1 ++ c2 :: gap2 ++ gap3) ->
  Forall (fun c => is_word c = true) (n :: name) ->
  pub_mod_pattern
    (indent ++ L "pub" ++ c1 :: gap1 ++ L "mod" ++ c2 :: gap2 ++ n :: name
            ++ gap3 ++ L ";" ++ after)
  = Some (tt, after).
Proof.
  intros Hspace Hword.
  apply Forall_app in Hspace as [Hi Hspace].
  apply Forall_cons in Hspace as [Hc1 Hspace].
  apply Forall_app in Hspace as [H1 Hspace].
  apply Forall_cons in Hspace as [Hc2 Hspace].
  apply Forall_app in Hspace as [H2 H3].
  apply Forall_cons in Hword as [Hn Hname].
  unfold pub_mod_pattern, many.
  rewrite skip_while_stop by done. bind_step.
  rewrite lit_app. bind_step.
  rewrite (many1_app is_space c1 gap1) by done. bind_step.
  rewrite lit_app. bind_step.
  rewrite (many1_app is_space c2 gap2)
    by (try done; cbn; by apply is_word_not_space).
  bind_step.
  rewrite (many1_app is_word n name).
  - bind_step. rewrite skip_while_stop by done. bind_step.
    by rewrite lit_app.
  - done.
  - done.
  - destruct gap3 as [|d gap3]; [done|].
    apply Forall_cons in H3 as [Hd _]. cbn. by apply is_space_not_word.
Qed.

(** A match of either pattern of the anchor file holds a [pub]. *)
Lemma pub_mod_pattern_contains t g rest :
  pub_mod_pattern t = Some (g, rest) -> contains (L "pub") t = true.
Proof.
  unfold pub_mod_pattern, many. intros H.
  apply bind_Some in H as (r1 & [= <-] & H).
  apply bind_Some in H as (r2 & H2 & _). apply lit_inv in H2.
  rewrite <- (take_skip_while is_space t), H2. apply contains_app_intro.
Qed.

Lemma memory_decl_pattern_contains t g rest :
  memory_decl_pattern t = Some (g, rest) -> contains (L "pub") t = true.
Proof.
  unfold memory_decl_pattern, many. intros H.
  apply bind_Some in H as (r1 & [= <-] & H).
  apply bind_Some in H as (r2 & H2 & _). apply lit_inv in H2.
  rewrite <- (take_skip_while is_space t), H2. apply contains_app_intro.
Qed.

Lemma pub_mod_pattern_none t :
  contains (L "pub") t = false -> pub_mod_pattern t = None.
Proof.
  intros H. destruct (pub_mod_pattern t) as [[g r]|] eqn:E; [|done].
  apply pub_mod_pattern_contains in E. congruence.
Qed.

Lemma memory_decl_pattern_none t :
  contains (L "pub") t = false -> memory_decl_pattern t = None.
Proof.
  intros H. destruct (memory_decl_pattern t) as [[g r]|] eqn:E; [|done].
  apply memory_decl_pattern_contains in E. congruence.
Qed.

Section one_sibling.
Variables (name post : pystr).
Hypothesis name_word : Forall (fun c => is_word c = true) name.
Hypothesis name_nonempty : name <> [].
Hypothesis post_no_pub : contains (L "pub") post = false.

(** The sibling declaration, at the start of a line, behind blank lines. *)
Lemma pub_mod_pattern_sibling t :
  Forall (fun c => is_space c = true) t ->
  pub_mod_pattern (t ++ L "pub mod " ++ name ++ L ";" ++ post) = Some (tt, post).
Proof.
  intros Ht. destruct name as [|n name'] eqn:En; [done|].
  apply (pub_mod_pattern_app t " " [] " " [] n name' [] post); [|done].
  rewrite Forall_app. split; [done|]. repeat (constructor; [done|]). constructor.
Qed.

Lemma pub_mod_pattern_not_blank t z :
  contains (L "pub") t = false -> last t = Some newline ->
  ~ Forall (fun c => is_space c = true) t ->
  pub_mod_pattern (t ++ z) = None.
Proof.
  intros Hc Hlast Hsp. unfold pub_mod_pattern, many. bind_step.
  by rewrite lit_pub_fails_behind.
Qed.

Lemma memory_decl_pattern_not_blank t z :
  contains (L "pub") t = false -> last t = Some newline ->
  ~ Forall (fun c => is_space c = true) t ->
  memory_decl_pattern (t ++ z) = None.
Proof.
  intros Hc Hlast Hsp. unfold memory_decl_pattern, many. bind_step.
  by rewrite lit_pub_fails_behind.
Qed.

(** A sibling with another name is no declaration of [memory]. *)
Lemma memory_decl_pattern_sibling t :
  name <> L "memory" ->
  Forall (fun c => is_space c = true) t ->
  memory_decl_pattern (t ++ L "pub mod " ++ name ++ L ";" ++ post) = None.
Proof.
  intros Hnm Ht. pose proof name_word as Hword.
  destruct name as [|n name'] eqn:En; [done|].
  pose proof Hword as Hword'. apply Forall_cons in Hword' as [Hn Hname'].
  unfold memory_decl_pattern, many.
  rewrite skip_while_stop by done. bind_step.
  change (L "pub mod " ++ (n :: name') ++ L ";" ++ post)
    with (L "pub" ++ " " :: [] ++ L "mod" ++ " " :: [] ++ (n :: name') ++ L ";" ++ post).
  rewrite lit_app. bind_step.
  rewrite (many1_app is_space " " []) by done. bind_step.
  rewrite lit_app. bind_step.
  rewrite (many1_app is_space " " [])
    by (try done; cbn; by apply is_word_not_space).
  bind_step. rewrite <- En in *.
  destruct (lit (L "memory") (name ++ L ";" ++ post)) as [r|] eqn:E; [|done].
  bind_step. apply lit_inv in E.
  destruct (app_eq_app_cases _ _ _ _ E) as [[Hl Hsemi]|[p' Hp']].
  - exfalso. destruct (drop (length name) (L "memory")) as [|d l] eqn:Ed.
    + apply (f_equal length) in Ed. rewrite length_drop in Ed.
      change (length (@nil ascii)) with 0 in Ed. lia.
    + cbn [app L list_ascii_of_string] in Hsemi. injection Hsemi as Hd _.
      assert (Hno : Forall (fun c => c <> ";") (L "memory"))
        by (repeat (constructor; [done|]); constructor).
      apply (Forall_drop _ (length name)) in Hno. rewrite Ed in Hno.
      apply Forall_cons in Hno as [Hno _]. by apply Hno.
  - rewrite Hp' in E. rewrite (app_assoc (L "memory")) in E.
    apply app_inv_tail in E.
    destruct p' as [|d p'].
    + exfalso. apply Hnm. by rewrite E, app_nil_r.
    + assert (Hd : is_word d = true).
      { rewrite E in Hword. apply Forall_app in Hword as [_ Hw].
        by apply Forall_cons in Hw as [Hw _]. }
      rewrite Hp'. cbn [app].
      rewrite skip_while_fixed by (by apply is_word_not_space).
      bind_step. cbn [lit L list_ascii_of_string].
      destruct (Ascii.eqb ";" d) eqn:Ed; [|done].
      apply Ascii.eqb_eq in Ed. subst d. done.
Qed.
End one_sibling.

(** ** The two scans of the anchor file *)

Lemma re_finditer_ends_none {A} (pat : pattern A) fuel bol pos s :
  (forall a t, s = a ++ t -> pat t = None) ->
  re_finditer_ends_fuel pat fuel bol pos s = [].
Proof.
  revert bol pos s. induction fuel as [|fuel IH]; intros bol pos s H; [done|].
  cbn [re_finditer_ends_fuel]. rewrite (H [] s) by done.
  destruct bol; (destruct s as [|c s]; [done|]);
    apply IH; intros a t ->; by apply (H (c :: a) t).
Qed.

Lemma re_search_multiline_none {A} (pat : pattern A) bol s :
  (forall a t, s = a ++ t -> pat t = None) ->
  re_search_multiline pat bol s = false.
Proof.
  revert bol. induction s as [|c s IH]; intros bol H;
    cbn [re_search_multiline]; unfold matches; rewrite (H [] _) by done;
    rewrite andb_false_r; [done|].
  cbn [orb]. apply IH. intros a t ->. by apply (H (c :: a) t).
Qed.

(** Inside a line the search finds nothing. *)
Lemma re_search_multiline_skip {A} (pat : pattern A) w s :
  Forall (fun c => c <> newline) w ->
  re_search_multiline pat false (w ++ s) = re_search_multiline pat false s.
Proof.
  induction 1 as [|c w Hc _ IH]; [done|].
  cbn [app re_search_multiline]. cbn [andb orb].
  by rewrite (proj2 (Ascii.eqb_neq c newline) Hc).
Qed.

Lemma last_tail {A} (c : A) t x :
  c :: t = [] \/ last (c :: t) = Some x -> t = [] \/ last t = Some x.
Proof.
  intros [H|H]; [done|]. destruct t as [|d t]; [by left|right].
  by rewrite last_cons_cons in H.
Qed.

Section one_sibling_scans.
Variables (name post : pystr).
Hypothesis name_word : Forall (fun c => is_word c = true) name.
Hypothesis name_nonempty : name <> [].
Hypothesis post_no_pub : contains (L "pub") post = false.

Lemma post_pattern_none (pat : pattern unit) :
  (forall t, contains (L "pub") t = false -> pat t = None) ->
  forall a t, post = a ++ t -> pat t = None.
Proof.
  intros Hpat a t E. apply Hpat. pose proof post_no_pub as H.
  rewrite E in H. by apply contains_suffix_false in H.
Qed.

(** No declaration of [memory] is found in a text whose only [pub] is
    that of a sibling with another name. *)
Lemma memory_not_declared_behind t bol :
  name <> L "memory" ->
  contains (L "pub") t = false -> t = [] \/ last t = Some newline ->
  re_search_multiline memory_decl_pattern bol
    (t ++ L "pub mod " ++ name ++ L ";" ++ post) = false.
Proof.
  intros Hnm. revert bol. induction t as [|c t IH]; intros bol Hc Hlast.
  - pose proof (memory_decl_pattern_sibling name post name_word name_nonempty
                  [] Hnm (Forall_nil_2 _)) as Hm.
    cbn [app] in *.
    change (L "pub mod " ++ name ++ L ";" ++ post)
      with ("p" :: L "ub mod " ++ name ++ L ";" ++ post) in *.
    cbn [re_search_multiline]. unfold matches at 1. rewrite Hm.
    rewrite andb_false_r. cbn [orb].
    change (Ascii.eqb "p" newline) with false.
    replace (L "ub mod " ++ name ++ L ";" ++ post)
      with ((L "ub mod " ++ name ++ L ";") ++ post) by (by rewrite <- !app_assoc).
    rewrite re_search_multiline_skip.
    + apply re_search_multiline_none, post_pattern_none, memory_decl_pattern_none.
    + apply Forall_app. split; [repeat (constructor; [done|]); constructor|].
      apply Forall_app. split.
      * eapply Forall_impl; [exact name_word|]. apply word_not_newline.
      * repeat (constructor; [done|]). constructor.
  - assert (Hm : memory_decl_pattern
                   ((c :: t) ++ L "pub mod " ++ name ++ L ";" ++ post) = None).
    { destruct (decide (Forall (fun c => is_space c = true) (c :: t))) as [Hsp|Hsp].
      - by apply memory_decl_pattern_sibling.
      - destruct Hlast as [Hlast|Hlast]; [done|].
        by apply memory_decl_pattern_not_blank. }
    cbn [app] in *. cbn [re_search_multiline]. unfold matches at 1. rewrite Hm.
    rewrite andb_false_r. cbn [orb].
    apply IH; [by apply contains_cons_false in Hc|by apply last_tail in Hlast].
Qed.

(** The last match of the scan, with nothing to find behind it. *)
Lemma re_finditer_ends_last_match fuel pos w :
  pub_mod_pattern (w ++ post) = Some (tt, post) ->
  re_finditer_ends_fuel pub_mod_pattern (S fuel) true pos (w ++ post)
  = [pos + length w].
Proof.
  intros H. cbn [re_finditer_ends_fuel]. rewrite H. cbv zeta.
  rewrite re_finditer_ends_none
    by apply post_pattern_none, pub_mod_pattern_none.
  f_equal. rewrite length_app. lia.
Qed.

(** The scan for siblings finds the one there is, and its end. *)
Lemma re_finditer_ends_behind t :
  forall fuel bol pos,
    contains (L "pub") t = false -> t = [] \/ last t = Some newline ->
    (t = [] -> bol = true) -> length t < fuel ->
    re_finditer_ends_fuel pub_mod_pattern fuel bol pos
      (t ++ L "pub mod " ++ name ++ L ";" ++ post)
    = [pos + length (t ++ L "pub mod " ++ name ++ L ";")].
Proof.
  assert (Hassoc : forall t,
            t ++ L "pub mod " ++ name ++ L ";" ++ post
            = (t ++ L "pub mod " ++ name ++ L ";") ++ post)
    by (intros t0; by rewrite <- !app_assoc).
  induction t as [|c t IH]; intros fuel bol pos Hc Hlast Hbol Hfuel;
    (destruct fuel as [|fuel]; [simpl in Hfuel; lia|]).
  - rewrite (Hbol eq_refl), Hassoc. apply re_finditer_ends_last_match.
    rewrite <- Hassoc. by apply pub_mod_pattern_sibling.
  - assert (Hstep :
              re_finditer_ends_fuel pub_mod_pattern fuel (Ascii.eqb c newline) (S pos)
                (t ++ L "pub mod " ++ name ++ L ";" ++ post)
              = [pos + length ((c :: t) ++ L "pub mod " ++ name ++ L ";")]).
    { rewrite IH.
      - f_equal. cbn [app length]. lia.
      - by apply contains_cons_false in Hc.
      - by apply last_tail in Hlast.
      - intros ->. destruct Hlast as [Hlast|Hlast]; [done|].
        injection Hlast as ->. done.
      - simpl in Hfuel. lia. }
    destruct bol.
    + destruct (decide (Forall (fun c => is_space c = true) (c :: t))) as [Hsp|Hsp].
      * rewrite Hassoc. apply re_finditer_ends_last_match.
        rewrite <- Hassoc. by apply pub_mod_pattern_sibling.
      * destruct Hlast as [Hlast|Hlast]; [done|].
        pose proof (pub_mod_pattern_not_blank (c :: t)
                      (L "pub mod " ++ name ++ L ";" ++ post) Hc Hlast Hsp) as Hnone.
        cbn [app] in *. cbn [re_finditer_ends_fuel]. rewrite Hnone. exact Hstep.
    + cbn [app] in *. cbn [re_finditer_ends_fuel]. exact Hstep.
Qed.

(** The declaration goes right behind the sibling. *)
Lemma with_memory_module_sibling pre :
  contains (L "pub") pre = false -> pre = [] \/ last pre = Some newline ->
  with_memory_module (pre ++ L "pub mod " ++ name ++ L ";" ++ post)
  = pre ++ L "pub mod " ++ name ++ L ";" ++ inserted_text ++ post.
Proof.
  intros Hc Hlast. unfold with_memory_module, re_finditer_ends.
  rewrite re_finditer_ends_behind; [|done|done|done|rewrite length_app; lia].
  cbn [last]. rewrite Nat.add_0_l.
  replace (pre ++ L "pub mod " ++ name ++ L ";" ++ post)
    with ((pre ++ L "pub mod " ++ name ++ L ";") ++ post)
    by (by rewrite <- !app_assoc).
  rewrite take_app_length, drop_app_length. by rewrite <- !app_assoc.
Qed.
End one_sibling_scans.

(** ** The fallback: in front of the first code line *)

Lemma is_code_line_blank line : blank_or_comment line -> is_code_line line = false.
Proof.
  unfold is_code_line. intros [H|[H|H]].
  - by rewrite bool_decide_eq_true_2.
  - rewrite H. cbn [negb]. by rewrite andb_false_r.
  - rewrite H. apply andb_false_r.
Qed.

Lemma is_code_line_code line : ~ blank_or_comment line -> is_code_line line = true.
Proof.
  unfold blank_or_comment, is_code_line. intros H.
  rewrite bool_decide_eq_false_2 by tauto.
  destruct (startswith (L "//") (strip line)); [tauto|].
  destruct (startswith (L "#!") (strip line)); [tauto|]. done.
Qed.

Lemma first_code_line_app i a l :
  Forall blank_or_comment a ->
  first_code_line i (a ++ l) = first_code_line (i + length a) l.
Proof.
  intros H. revert i. induction H as [|line a Hl _ IH]; intros i.
  - by rewrite Nat.add_0_r.
  - cbn [app first_code_line length]. rewrite is_code_line_blank by done.
    rewrite IH. f_equal. lia.
Qed.

Lemma no_sibling_found c :
  contains (L "pub") c = false -> last (re_finditer_ends pub_mod_pattern c) = None.
Proof.
  intros H. unfold re_finditer_ends. rewrite re_finditer_ends_none; [done|].
  intros a t ->. apply pub_mod_pattern_none. by apply contains_suffix_false in H.
Qed.

Lemma not_declared_without_pub c :
  contains (L "pub") c = false -> memory_module_declared c = false.
Proof.
  intros H. apply re_search_multiline_none.
  intros a t ->. apply memory_decl_pattern_none. by apply contains_suffix_false in H.
Qed.

Lemma with_memory_module_first_code c comments code rest :
  contains (L "pub") c = false ->
  split newline c = comments ++ code :: rest ->
  Forall blank_or_comment comments -> ~ blank_or_comment code ->
  with_memory_module c
  = join [newline] (comments ++ doc_line :: decl_line :: [] :: code :: rest).
Proof.
  intros Hc Hsplit Hcom Hcode.
  rewrite with_memory_module_lines by (by apply no_sibling_found). cbv zeta.
  rewrite Hsplit.
  assert (Hi : insert_line_of (comments ++ code :: rest) = length comments).
  { unfold insert_line_of. rewrite first_code_line_app by done.
    cbn [first_code_line]. by rewrite is_code_line_code. }
  rewrite Hi. by rewrite take_app_length, drop_app_length.
Qed.

Lemma with_memory_module_no_code c :
  contains (L "pub") c = false ->
  Forall blank_or_comment (split newline c) ->
  with_memory_module c = join [newline] (doc_line :: decl_line :: [] :: split newline c).
Proof.
  intros Hc Hall.
  rewrite with_memory_module_lines by (by apply no_sibling_found). cbv zeta.
  assert (Hi : insert_line_of (split newline c) = 0).
  { unfold insert_line_of.
    rewrite <- (app_nil_r (split newline c)), first_code_line_app by done. done. }
  by rewrite Hi.
Qed.

(** A declaration of [memory], however it is spaced, is found at the
    start of the text and behind any newline. *)
Lemma loose_declaration_found before indent gap1 gap2 gap3 after c1 c2 :
  before = [] \/ last before = Some newline ->
  Forall (fun c => is_space c = true) (indent ++ c1 :: gap1 ++ c2 :: gap2 ++ gap3) ->
  memory_module_declared
    (before ++ indent ++ L "pub" ++ c1 :: gap1 ++ L "mod" ++ c2 :: gap2
            ++ L "memory" ++ gap3 ++ L ";" ++ after) = true.
Proof.
  intros Hline Hspace.
  apply Forall_app in Hspace as [Hi Hspace].
  apply Forall_cons in Hspace as [Hc1 Hspace].
  apply Forall_app in Hspace as [H1 Hspace].
  apply Forall_cons in Hspace as [Hc2 Hspace].
  apply Forall_app in Hspace as [H2 H3].
  assert (Hm : matches memory_decl_pattern
                 (indent ++ L "pub" ++ c1 :: gap1 ++ L "mod" ++ c2 :: gap2
                         ++ L "memory" ++ gap3 ++ L ";" ++ after) = true).
  { unfold matches, memory_decl_pattern, many.
    rewrite skip_while_stop by done. bind_step.
    rewrite lit_app. bind_step.
    rewrite (many1_app is_space c1 gap1) by done. bind_step.
    rewrite lit_app. bind_step.
    rewrite (many1_app is_space c2 gap2) by done. bind_step.
    rewrite lit_app. bind_step.
    rewrite skip_while_stop by done. bind_step.
    rewrite lit_app. done. }
  unfold memory_module_declared.
  destruct Hline as [->|Hlast].
  - cbn [app]. revert Hm.
    generalize (indent ++ L "pub" ++ c1 :: gap1 ++ L "mod" ++ c2 :: gap2
                       ++ L "memory" ++ gap3 ++ L ";" ++ after).
    intros t Hm. destruct t; cbn [re_search_multiline]; by rewrite Hm.
  - apply last_Some in Hlast as [b ->]. rewrite <- app_assoc. cbn [app].
    by apply re_search_multiline_after_newline.
Qed.

(** ** Behind the last sibling, whatever stands before it *)

Lemma skip_while_app f u z :
  match z with d :: _ => f d = false | [] => True end ->
  skip_while f (u ++ z) = skip_while f u ++ z.
Proof.
  intros Hz. induction u as [|c u IH]; cbn [app skip_while].
  - by apply skip_while_fixed.
  - by destruct (f c).
Qed.

Lemma skip_while_before_stop f u z :
  (exists x, last u = Some x /\ f x = false) ->
  skip_while f (u ++ z) = skip_while f u ++ z /\ skip_while f u <> [].
Proof.
  induction u as [|c u IH]; intros (x & Hl & Hx); [done|].
  cbn [app skip_while]. destruct (f c) eqn:Ec; [|by split].
  apply IH. destruct u as [|d u].
  - injection Hl as ->. congruence.
  - rewrite last_cons_cons in Hl. eauto.
Qed.

Lemma skip_while_nil_Forall f u :
  skip_while f u = [] -> Forall (fun c => f c = true) u.
Proof.
  induction u as [|c u IH]; [constructor|]. cbn [skip_while].
  destruct (f c) eqn:Ec; [|done]. intros H. constructor; auto.
Qed.

Lemma skip_while_tail f u : exists a, u = a ++ skip_while f u.
Proof. exists (take_while f u). by rewrite take_skip_while. Qed.

Lemma last_of_tail (t a u : pystr) x :
  t = a ++ u -> u <> [] -> last t = Some x -> last u = Some x.
Proof.
  intros -> Hu H. rewrite last_app in H.
  destruct (last u) eqn:E; [done|]. by apply last_None in E.
Qed.

(** A literal matched in front of a text that ends with a newline lies
    within that text, and does not use it up. *)
Lemma lit_within p u z r :
  Forall (fun c => c <> newline) p -> last u = Some newline ->
  lit p (u ++ z) = Some r ->
  exists u', u = p ++ u' /\ u' <> [] /\ r = u' ++ z.
Proof.
  intros Hp Hlast E. apply lit_inv in E.
  destruct (app_eq_app_cases _ _ _ _ E) as [[Hl _]|[p' Hp']].
  - exfalso. apply (f_equal (take (length u))) in E.
    rewrite take_app_length, take_app_le in E by lia.
    apply last_Some_elem_of in Hlast. rewrite E in Hlast.
    apply (Forall_take _ (length u)) in Hp.
    rewrite Forall_forall in Hp. by apply (Hp newline).
  - rewrite Hp', app_assoc in E. apply app_inv_tail in E.
    exists p'. split; [done|]. split; [|done].
    intros ->. rewrite app_nil_r in E. subst u.
    apply last_Some_elem_of in Hlast.
    rewrite Forall_forall in Hp. by apply (Hp newline).
Qed.

Lemma many1_space_within u z r :
  match z with d :: _ => is_space d = false | [] => True end ->
  u <> [] -> many1 is_space (u ++ z) = Some r ->
  exists a u', u = a ++ u' /\ a <> [] /\ r = u' ++ z.
Proof.
  intros Hz Hu E. destruct u as [|c u]; [done|].
  unfold many1 in E. cbn [app] in E.
  destruct (is_space c); [|done]. injection E as <-.
  rewrite skip_while_app by done.
  exists (c :: take_while is_space u), (skip_while is_space u).
  split; [cbn [app]; by rewrite take_skip_while|]. by split.
Qed.

Lemma many1_word_within u z r :
  last u = Some newline -> many1 is_word (u ++ z) = Some r ->
  exists a u', u = a ++ u' /\ a <> [] /\ u' <> [] /\ r = u' ++ z.
Proof.
  intros Hlast E. destruct u as [|c u]; [done|].
  unfold many1 in E. cbn [app] in E.
  destruct (is_word c) eqn:Ec; [|done]. injection E as <-.
  assert (Hu : exists x, last u = Some x /\ is_word x = false).
  { destruct u as [|d u].
    - injection Hlast as ->. done.
    - rewrite last_cons_cons in Hlast. by exists newline. }
  destruct (skip_while_before_stop is_word u z Hu) as [-> Hne].
  exists (c :: take_while is_word u), (skip_while is_word u).
  split_and!; try done. cbn [app]. by rewrite take_skip_while.
Qed.

Lemma no_newline_pub : Forall (fun c => c <> newline) (L "pub").
Proof. repeat (constructor; [done|]). constructor. Qed.

Lemma no_newline_mod : Forall (fun c => c <> newline) (L "mod").
Proof. repeat (constructor; [done|]). constructor. Qed.

Lemma no_newline_semicolon : Forall (fun c => c <> newline) (L ";").
Proof. repeat (constructor; [done|]). constructor. Qed.

Lemma no_newline_memory : Forall (fun c => c <> newline) (L "memory").
Proof. repeat (constructor; [done|]). constructor. Qed.

Section last_sibling.
Variables (name post : pystr).
Hypothesis name_word : Forall (fun c => is_word c = true) name.
Hypothesis name_nonempty : name <> [].
Hypothesis post_no_pub : contains (L "pub") post = false.

Local Abbreviation behind := (L "pub mod " ++ name ++ L ";" ++ post).

(** The common head of the two patterns, tried in front of the sibling
    on a text that is not all white space: [pub], white space, [mod] and
    white space are found within that text. *)
Lemma pub_mod_head_within t r2 r3 r4 r5 :
  last t = Some newline -> ~ Forall (fun c => is_space c = true) t ->
  lit (L "pub") (skip_while is_space (t ++ behind)) = Some r2 ->
  many1 is_space r2 = Some r3 ->
  lit (L "mod") r3 = Some r4 ->
  many1 is_space r4 = Some r5 ->
  exists a1 a3 a5 u,
    t = (a1 ++ L "pub" ++ a3 ++ L "mod" ++ a5) ++ u
    /\ r5 = u ++ behind /\ (u = [] \/ last u = Some newline).
Proof.
  intros Hlast Hsp H2 H3 H4 H5.
  rewrite skip_while_app in H2 by done.
  destruct (skip_while_tail is_space t) as [a1 E1].
  assert (Hu1 : skip_while is_space t <> []).
  { intros Hnil. apply Hsp. by apply skip_while_nil_Forall. }
  pose proof (last_of_tail _ _ _ _ E1 Hu1 Hlast) as Hl1.
  destruct (lit_within _ _ _ _ no_newline_pub Hl1 H2) as (u2 & E2 & Hu2 & ->).
  pose proof (last_of_tail _ _ _ _ E2 Hu2 Hl1) as Hl2.
  destruct (many1_space_within u2 behind r3) as (a3 & u3 & E3 & Ha3 & ->);
    [done|done|done|].
  destruct (decide (u3 = [])) as [->|Hu3]; [by cbn in H4|].
  pose proof (last_of_tail _ _ _ _ E3 Hu3 Hl2) as Hl3.
  destruct (lit_within _ _ _ _ no_newline_mod Hl3 H4) as (u4 & E4 & Hu4 & ->).
  pose proof (last_of_tail _ _ _ _ E4 Hu4 Hl3) as Hl4.
  destruct (many1_space_within u4 behind r5) as (a5 & u5 & E5 & Ha5 & ->);
    [done|done|done|].
  exists a1, a3, a5, u5. split_and!.
  - rewrite E1, E2, E3, E4, E5. by rewrite <- !app_assoc.
  - done.
  - destruct (decide (u5 = [])) as [->|Hu5]; [by left|right].
    by apply (last_of_tail _ _ _ _ E5 Hu5).
Qed.

(** A match of the sibling pattern that starts before the last sibling
    ends before it, or is the last sibling. *)
Lemma pub_mod_pattern_before t rest :
  t = [] \/ last t = Some newline ->
  pub_mod_pattern (t ++ behind) = Some (tt, rest) ->
  rest = post
  \/ exists a u, t = a ++ u /\ a <> [] /\ u <> [] /\ last u = Some newline
                 /\ rest = u ++ behind.
Proof.
  intros Hlast H.
  destruct (decide (Forall (fun c => is_space c = true) t)) as [Hsp|Hsp].
  { left. rewrite (pub_mod_pattern_sibling name post) in H by done. by injection H. }
  right. destruct Hlast as [->|Hlast]; [by destruct Hsp|].
  unfold pub_mod_pattern, many in H.
  apply bind_Some in H as (r1 & [= <-] & H).
  apply bind_Some in H as (r2 & H2 & H).
  apply bind_Some in H as (r3 & H3 & H).
  apply bind_Some in H as (r4 & H4 & H).
  apply bind_Some in H as (r5 & H5 & H).
  destruct (pub_mod_head_within t r2 r3 r4 r5 Hlast Hsp H2 H3 H4 H5)
    as (a1 & a3 & a5 & u5 & E5 & -> & Hl5).
  apply bind_Some in H as (r6 & H6 & H).
  destruct Hl5 as [->|Hl5].
  { cbn in H6. injection H6 as <-. by cbn in H. }
  destruct (many1_word_within u5 behind r6 Hl5 H6) as (a6 & u6 & E6 & Ha6 & Hu6 & ->).
  pose proof (last_of_tail _ _ _ _ E6 Hu6 Hl5) as Hl6.
  apply bind_Some in H as (r7 & [= <-] & H).
  rewrite skip_while_app in H by done.
  destruct (skip_while_tail is_space u6) as [a7 E7].
  destruct (decide (skip_while is_space u6 = [])) as [Hu7|Hu7].
  { rewrite Hu7 in H. by cbn in H. }
  pose proof (last_of_tail _ _ _ _ E7 Hu7 Hl6) as Hl7.
  apply bind_Some in H as (r8 & H8 & [= <-]).
  destruct (lit_within _ _ _ _ no_newline_semicolon Hl7 H8) as (u8 & E8 & Hu8 & ->).
  pose proof (last_of_tail _ _ _ _ E8 Hu8 Hl7) as Hl8.
  exists ((a1 ++ L "pub" ++ a3 ++ L "mod" ++ a5) ++ a6 ++ a7 ++ L ";"), u8.
  split_and!; try done.
  - rewrite E5. rewrite E6 at 1. rewrite E7 at 1. rewrite E8 at 1.
    by rewrite <- !app_assoc.
  - intros Ha. apply app_eq_nil in Ha as [Ha _].
    apply app_eq_nil in Ha as [_ Ha]. done.
Qed.

(** No declaration of [memory] starts in a text without [memory] that
    stands before a sibling with another name. *)
Lemma memory_decl_pattern_before t :
  name <> L "memory" ->
  contains (L "memory") t = false -> t = [] \/ last t = Some newline ->
  memory_decl_pattern (t ++ behind) = None.
Proof.
  intros Hnm Hc Hlast.
  destruct (decide (Forall (fun c => is_space c = true) t)) as [Hsp|Hsp].
  { by apply memory_decl_pattern_sibling. }
  destruct Hlast as [->|Hlast]; [by destruct Hsp|].
  destruct (memory_decl_pattern (t ++ behind)) as [[[] rest]|] eqn:H; [|done].
  exfalso. unfold memory_decl_pattern, many in H.
  apply bind_Some in H as (r1 & [= <-] & H).
  apply bind_Some in H as (r2 & H2 & H).
  apply bind_Some in H as (r3 & H3 & H).
  apply bind_Some in H as (r4 & H4 & H).
  apply bind_Some in H as (r5 & H5 & H).
  destruct (pub_mod_head_within t r2 r3 r4 r5 Hlast Hsp H2 H3 H4 H5)
    as (a1 & a3 & a5 & u5 & E5 & -> & Hl5).
  apply bind_Some in H as (r6 & H6 & H).
  destruct Hl5 as [->|Hl5]; [by cbn in H6|].
  destruct (lit_within _ _ _ _ no_newline_memory Hl5 H6) as (u6 & E6 & _ & _).
  assert (Hin : contains (L "memory") t = true).
  { rewrite E5, E6. apply contains_app_intro. }
  congruence.
Qed.

Lemma memory_not_declared_before t bol :
  name <> L "memory" ->
  contains (L "memory") t = false -> t = [] \/ last t = Some newline ->
  re_search_multiline memory_decl_pattern bol (t ++ behind) = false.
Proof.
  intros Hnm. revert bol. induction t as [|c t IH]; intros bol Hc Hlast.
  - by apply (memory_not_declared_behind name post).
  - pose proof (memory_decl_pattern_before (c :: t) Hnm Hc Hlast) as Hm.
    cbn [app] in *. cbn [re_search_multiline]. unfold matches at 1. rewrite Hm.
    rewrite andb_false_r. cbn [orb].
    apply IH; [by apply contains_cons_false in Hc|by apply last_tail in Hlast].
Qed.

(** The last end the scan for siblings gives is the end of the last
    sibling. *)
Lemma re_finditer_ends_last t :
  forall fuel bol pos,
    t = [] \/ last t = Some newline ->
    (t = [] -> bol = true) -> length t < fuel ->
    last (re_finditer_ends_fuel pub_mod_pattern fuel bol pos (t ++ behind))
    = Some (pos + length (t ++ L "pub mod " ++ name ++ L ";")).
Proof.
  assert (Hassoc : forall t0,
            t0 ++ behind = (t0 ++ L "pub mod " ++ name ++ L ";") ++ post)
    by (intros t0; by rewrite <- !app_assoc).
  induction t as [t IH] using (induction_ltof1 _ (@length ascii)).
  unfold ltof in IH. intros fuel bol pos Hlast Hbol Hfuel.
  destruct fuel as [|fuel]; [lia|].
  cbn [re_finditer_ends_fuel].
  destruct (if bol then pub_mod_pattern (t ++ behind) else None)
    as [[[] rest]|] eqn:E.
  - destruct bol; [|done].
    destruct (pub_mod_pattern_before t rest Hlast E)
      as [->|(a & u & Et & Ha & Hu & Hlu & ->)]; cbv zeta.
    + rewrite re_finditer_ends_none
        by apply (post_pattern_none post post_no_pub), pub_mod_pattern_none.
      cbn [last]. f_equal. rewrite Hassoc, !length_app. lia.
    + rewrite last_cons, IH.
      * f_equal. rewrite Et, !length_app. lia.
      * rewrite Et, length_app. destruct a; [done|]. simpl. lia.
      * by right.
      * done.
      * destruct a; [done|]. rewrite Et, length_app in Hfuel. simpl in Hfuel. lia.
  - destruct t as [|c t].
    + pose proof (pub_mod_pattern_sibling name post name_word name_nonempty []
                    (Forall_nil_2 _)) as Hs.
      rewrite (Hbol eq_refl), Hs in E. done.
    + cbn [app]. rewrite IH.
      * f_equal. cbn [app length]. lia.
      * simpl. lia.
      * by apply last_tail in Hlast.
      * intros ->. destruct Hlast as [Hlast|Hlast]; [done|].
        injection Hlast as ->. done.
      * simpl in Hfuel. lia.
Qed.

(** The declaration goes right behind the last sibling. *)
Lemma with_memory_module_last pre :
  pre = [] \/ last pre = Some newline ->
  with_memory_module (pre ++ behind)
  = pre ++ L "pub mod " ++ name ++ L ";" ++ inserted_text ++ post.
Proof.
  intros Hlast. unfold with_memory_module, re_finditer_ends.
  rewrite re_finditer_ends_last; [|done|done|rewrite length_app; lia].
  rewrite Nat.add_0_l.
  replace (pre ++ behind) with ((pre ++ L "pub mod " ++ name ++ L ";") ++ post)
    by (by rewrite <- !app_assoc).
  rewrite take_app_length, drop_app_length. by rewrite <- !app_assoc.
Qed.
End last_sibling.

(** C9: on an anchor file that can be read and written.  The first call
    changes nothing and returns False when a declaration of [memory] is
    there, however it is spaced, at the start of the text or of a line.
    Otherwise it writes the file once and returns True: behind a sibling
    [pub mod name;] that stands at the start of a line and has no [pub]
    behind it, the last sibling, the doc line and the declaration go
    right behind that sibling, whatever text without [pub] or whatever
    text without [memory], other siblings included, stands before it;
    with no [pub] in the text at all, they go, with an empty line, in
    front of the first line that is neither blank nor a comment nor a
    [#!] line, and in front of line 0 when there is no such line.  The
    text written declares the module, so a second call changes nothing
    and returns False. *)
Theorem declaration_inserted_once (lib : Path) (w : world) (f : file)
    (Hp : fs w !! lib = Some (File f))
    (Hr : read_error f = None) (Hw : write_error f = None) :
  let c := content f in
  let r1 := add_memory_module_to_lib lib w in
  let r2 := add_memory_module_to_lib lib r1.2 in
  let inserted text :=
    (Return true, printed AddedDeclaration (stored lib (with_content text f) w)) in
  r1 = (if memory_module_declared c
        then (Return false, printed AlreadyDeclared w)
        else inserted (with_memory_module c))
  /\ r2 = (Return false, printed AlreadyDeclared r1.2)
  /\ memory_module_declared (with_memory_module c) = true
  /\ (forall before indent gap1 gap2 gap3 after c1 c2,
        c = before ++ indent ++ L "pub" ++ c1 :: gap1 ++ L "mod" ++ c2 :: gap2
                   ++ L "memory" ++ gap3 ++ L ";" ++ after ->
        before = [] \/ last before = Some newline ->
        forallb is_space (indent ++ c1 :: gap1 ++ c2 :: gap2 ++ gap3) = true ->
        r1 = (Return false, printed AlreadyDeclared w))
  /\ (forall pre name post,
        c = pre ++ L "pub mod " ++ name ++ L ";" ++ post ->
        pre = [] \/ last pre = Some newline ->
        contains (L "pub") pre = false -> contains (L "pub") post = false ->
        name <> [] -> forallb is_word name = true -> name <> L "memory" ->
        r1 = inserted (pre ++ L "pub mod " ++ name ++ L ";" ++ inserted_text ++ post))
  /\ (forall pre name post,
        c = pre ++ L "pub mod " ++ name ++ L ";" ++ post ->
        pre = [] \/ last pre = Some newline ->
        contains (L "memory") pre = false -> contains (L "pub") post = false ->
        name <> [] -> forallb is_word name = true -> name <> L "memory" ->
        r1 = inserted (pre ++ L "pub mod " ++ name ++ L ";" ++ inserted_text ++ post))
  /\ (forall comments code rest,
        contains (L "pub") c = false ->
        split newline c = comments ++ code :: rest ->
        Forall blank_or_comment comments -> ~ blank_or_comment code ->
        r1 = inserted
               (join [newline] (comments ++ doc_line :: decl_line :: [] :: code :: rest)))
  /\ (contains (L "pub") c = false ->
      Forall blank_or_comment (split newline c) ->
      r1 = inserted (join [newline] (doc_line :: decl_line :: [] :: split newline c))).
Proof.
  intros c r1 r2 inserted.
  assert (H1 : r1 = (if memory_module_declared c
                     then (Return false, printed AlreadyDeclared w)
                     else inserted (with_memory_module c))).
  { unfold r1. destruct (memory_module_declared c) eqn:E.
    - by apply (add_memory_module_to_lib_declared lib w f).
    - by apply (add_memory_module_to_lib_inserts lib w f). }
  split_and!.
  - done.
  - unfold r2. rewrite H1. destruct (memory_module_declared c) eqn:E; cbn [snd].
    + by apply (add_memory_module_to_lib_declared lib _ f).
    + apply (add_memory_module_to_lib_declared lib _
               (with_content (with_memory_module c) f)); try done.
      * cbn [fs printed stored]. apply lookup_insert_eq.
      * apply with_memory_module_declared.
  - apply with_memory_module_declared.
  - intros before indent gap1 gap2 gap3 after c1 c2 Hc Hline Hspace.
    apply forallb_Forall_true in Hspace.
    rewrite H1, Hc. by rewrite loose_declaration_found.
  - intros pre name post Hc Hline Hpre Hpost Hne Hword Hnm.
    apply forallb_Forall_true in Hword.
    assert (Hd : memory_module_declared
                   (pre ++ L "pub mod " ++ name ++ L ";" ++ post) = false)
      by (by apply (memory_not_declared_behind name post)).
    rewrite H1, Hc, Hd.
    by rewrite (with_memory_module_sibling name post).
  - intros pre name post Hc Hline Hpre Hpost Hne Hword Hnm.
    apply forallb_Forall_true in Hword.
    assert (Hd : memory_module_declared
                   (pre ++ L "pub mod " ++ name ++ L ";" ++ post) = false)
      by (by apply (memory_not_declared_before name post)).
    rewrite H1, Hc, Hd.
    by rewrite (with_memory_module_last name post).
  - intros comments code rest Hpub Hsplit Hcom Hcode.
    rewrite H1, not_declared_without_pub by done.
    by rewrite (with_memory_module_first_code c comments code rest).
  - intros Hpub Hall.
    rewrite H1, not_declared_without_pub by done.
    by rewrite with_memory_module_no_code.
Qed.

Lemma declaration_inserted_once_witness :
  fs tree_with_anchor !! example_lib = Some (File (plain_file (L "pub mod agent;")))
  /\ add_memory_module_to_lib example_lib tree_with_anchor
     = (Return true,
        printed AddedDeclaration
          (stored example_lib
             (with_content
                ([] ++ L "pub mod " ++ L "agent" ++ L ";" ++ inserted_text ++ [])
                (plain_file (L "pub mod agent;")))
             tree_with_anchor))
  /\ add_memory_module_to_lib example_lib
       (add_memory_module_to_lib example_lib tree_with_anchor).2
     = (Return false,
        printed AlreadyDeclared (add_memory_module_to_lib example_lib tree_with_anchor).2).
Proof.
  assert (Hp : fs tree_with_anchor !! example_lib
               = Some (File (plain_file (L "pub mod agent;"))))
    by (vm_compute; reflexivity).
  assert (Hne : L "agent" <> []) by done.
  assert (Hnm : L "agent" <> L "memory") by done.
  split; [exact Hp|]. split.
  - exact (proj1 (proj2 (proj2 (proj2 (proj2
      (declaration_inserted_once example_lib tree_with_anchor
         (plain_file (L "pub mod agent;")) Hp eq_refl eq_refl)))))
      [] (L "agent") [] eq_refl (or_introl eq_refl) eq_refl eq_refl Hne eq_refl Hnm).
  - exact (proj1 (proj2
      (declaration_inserted_once example_lib tree_with_anchor
         (plain_file (L "pub mod agent;")) Hp eq_refl eq_refl))).
Defined.

(** ** Scans of patterns that start with [use] and white space *)

Lemma starts_clear_use x : starts_clear (L "use" ++ x).
Proof. done. Qed.


Section use_headed.
Context {A : Type} (pat : pattern A) (repl : A -> pystr).
Hypothesis pat_shrinks : shrinks pat.
Hypothesis pat_headed : forall s g r, pat s = Some (g, r) ->
  exists c x, s = L "use" ++ c :: x /\ is_space c = true.









End use_headed.

(** ** Texts in which no [use] is followed by white space *)














(** ** The three patterns start with [use] and white space *)







(** ** The heads of the imports *)



Section import_head.
Context {A : Type} (pat : pattern A) (repl : A -> pystr).
Hypothesis pat_shrinks : shrinks pat.
Hypothesis pat_headed : forall s g r, pat s = Some (g, r) ->
  exists c x, s = L "use" ++ c :: x /\ is_space c = true.

End import_head.







Lemma pattern1_not_candle y :
  pattern1 (L "use" ++ " " :: [] ++ L "paraphym_candle::memory::" ++ y) = None.
Proof. done. Qed.

Lemma pattern2_not_candle y :
  pattern2 (L "use" ++ " " :: [] ++ L "paraphym_candle::memory::" ++ y) = None.
Proof. done. Qed.

Lemma external_pattern_not_candle y :
  external_pattern (L "use" ++ " " :: [] ++ L "paraphym_candle::memory::" ++ y) = None.
Proof. done. Qed.

(** ** The external remap on the imports *)








(** ** The internal remaps on the imports *)







(** ** The bracketed import *)

Section bracketed_group.
Context {A : Type} (pat : pattern A) (repl : A -> pystr).
Hypothesis pat_shrinks : shrinks pat.
Hypothesis pat_headed : forall s g r, pat s = Some (g, r) ->
  exists c x, s = L "use" ++ c :: x /\ is_space c = true.

End bracketed_group.


Lemma pattern2_not_empty_group c ws y :
  is_space c = true -> Forall (fun c => is_space c = true) ws ->
  pattern2 (L "use" ++ c :: ws ++ L "crate::{" ++ [] ++ L "}" ++ y) = None.
Proof.
  intros Hc Hws. unfold pattern2. rewrite lit_app. bind_step.
  rewrite (many1_app is_space c ws) by done. bind_step.
  rewrite lit_app. bind_step. reflexivity.
Qed.






(** ** Both rule sets, applied twice *)









